(** * Twilio SMS UI integration: dispatcher and setup wizard

    Shallow embedding of [custom_components/twilio_sms_ui/__init__.py] and
    [config_flow.py].  Python dictionaries iterate in insertion order, and
    several properties below depend on that order, so [hass.data[DOMAIN]] is
    an association list from entry ids to entry records. *)

From Stdlib Require Import String Ascii List Bool ZArith Lia Arith.
Import ListNotations.
Open Scope string_scope.
Open Scope list_scope.

(** ** Python primitives used by the integration *)

(** [x in l] for a list of strings. *)
Definition py_in (x : string) (l : list string) : bool :=
  existsb (String.eqb x) l.

(** [s.startswith(p)]. *)
Definition startswith (s p : string) : bool := String.prefix p s.

(** [s.startswith((p1, p2, ...))]. *)
Definition startswith_any (s : string) (ps : list string) : bool :=
  existsb (startswith s) ps.

(** [s.rstrip("/")]: every trailing slash is removed. *)
Fixpoint rstrip_slash (s : string) : string :=
  match s with
  | EmptyString => EmptyString
  | String c s' =>
      match rstrip_slash s' with
      | EmptyString => if Ascii.eqb c "/" then EmptyString else String c EmptyString
      | r => String c r
      end
  end.

(** Truthiness of a Python string. *)
Definition truthy (s : string) : bool :=
  match s with EmptyString => false | _ => true end.

(** An insertion-ordered dictionary with string keys. *)
Module PyDict.
Definition t (V : Type) : Type := list (string * V).

Definition values {V} (d : t V) : list V := map snd d.

Definition keys {V} (d : t V) : list string := map fst d.

(** [d.get(k)]. *)
Fixpoint get {V} (k : string) (d : t V) : option V :=
  match d with
  | [] => None
  | (k', v') :: d' => if String.eqb k k' then Some v' else get k d'
  end.

(** [d[k] = v]: an existing key keeps its position, a new key goes last. *)
Fixpoint set {V} (k : string) (v : V) (d : t V) : t V :=
  match d with
  | [] => [(k, v)]
  | (k', v') :: d' =>
      if String.eqb k k' then (k, v) :: d' else (k', v') :: set k v d'
  end.

(** [d.pop(k)]: [None] stands for [KeyError]. *)
Fixpoint pop {V} (k : string) (d : t V) : option (t V) :=
  match d with
  | [] => None
  | (k', v') :: d' =>
      if String.eqb k k' then Some d'
      else option_map (cons (k', v')) (pop k d')
  end.
End PyDict.

(** ** const.py *)

Definition DOMAIN := "twilio_sms_ui".
Definition CONF_ACCOUNT_SID := "account_sid".
Definition CONF_AUTH_TOKEN := "auth_token".
Definition CONF_PHONE_NUMBERS := "phone_numbers".
Definition CONF_EXTERNAL_URL := "external_url".
Definition CONF_DEBUG := "debug".
Definition ATTR_TARGET := "target".
Definition ATTR_MESSAGE := "message".
Definition ATTR_MEDIA_URL := "media_url".
Definition ATTR_FROM_NUMBER := "from_number".

Definition SERVICE_SEND_MESSAGE := "send_message".

Definition LOCAL_PATH_PREFIXES : list string := ["/local/"; "/media/"; "/api/"].

(** ** Runtime registry *)

(** [twilio.rest.Client(account_sid, auth_token)]. *)
Record Client := mkClient {
  client_account_sid : string;
  client_auth_token : string
}.

(** The dictionary stored under [hass.data[DOMAIN][entry_id]]. *)
Record EntryData := mkEntryData {
  client : Client;
  phone_numbers : list string;
  external_url : string;
  debug : bool
}.

(** Validators of voluptuous and [cv] that the action schema is built from. *)
Inductive Validator :=
| EnsureListOfTemplates
| TemplateValidator
| InValidator (container : list string)
| StringValidator.

(** The [vol.Schema] passed to [hass.services.async_register]. *)
Record ServiceSchema := mkServiceSchema {
  required_target : Validator;
  required_message : Validator;
  optional_media_url : Validator;
  required_from_number : Validator
}.

(** The [select] selector of the [from_number] field of the description. *)
Record SelectSelector := mkSelectSelector {
  options : list string;
  custom_value : bool
}.

(** The description handed to [async_set_service_schema]; the three text
    fields are constant, the [from_number] selector is computed. *)
Record ServiceDescription := mkServiceDescription {
  desc_name : string;
  desc_text_fields : list string;
  desc_from_number : SelectSelector
}.

(** The part of [hass] the integration reads and writes: [hass.data.get(DOMAIN)]
    ([None] when the key was never set), the schema of the registered
    [send_message] service ([None] when it is not registered) and the
    description last published for it. *)
Record HomeAssistant := mkHass {
  domain_data : option (PyDict.t EntryData);
  service : option ServiceSchema;
  description : option ServiceDescription
}.

Definition initial_hass : HomeAssistant := mkHass None None None.

(** [hass.data.get(DOMAIN, {}).values()]. *)
Definition entries (hass : HomeAssistant) : list EntryData :=
  match domain_data hass with
  | Some d => PyDict.values d
  | None => []
  end.

(** Body of the inner loop of [_get_all_phone_numbers]. *)
Definition append_if_absent (all_numbers : list string) (number : string)
  : list string :=
  if py_in number all_numbers then all_numbers else all_numbers ++ [number].

Definition _get_all_phone_numbers (hass : HomeAssistant) : list string :=
  fold_left
    (fun all_numbers entry_data =>
       fold_left append_if_absent (phone_numbers entry_data) all_numbers)
    (entries hass) [].

(** The aggregate list in the words of the specification: the union of the
    entries' lists, entry after entry, where only the first occurrence of a
    number is kept. *)
Fixpoint keep_first (l : list string) : list string :=
  match l with
  | [] => []
  | x :: r => x :: filter (fun y => negb (String.eqb x y)) (keep_first r)
  end.

Definition dedup_union (lists : list (list string)) : list string :=
  keep_first (concat lists).

(** ** Action schema and description *)

Definition _get_service_schema (phone_numbers : list string) : ServiceSchema :=
  mkServiceSchema
    EnsureListOfTemplates
    TemplateValidator
    EnsureListOfTemplates
    (match phone_numbers with
     | _ :: _ => InValidator phone_numbers
     | [] => StringValidator
     end).

(** What a validator does with a string value: [vol.In] admits the members
    of its container, the template and string validators admit any string. *)
Definition accepts (v : Validator) (value : string) : bool :=
  match v with
  | InValidator container => py_in value container
  | EnsureListOfTemplates | TemplateValidator | StringValidator => true
  end.

(** Calls the integration makes on the host's service registry. *)
Inductive ServiceApiCall :=
| AsyncRegister (schema : ServiceSchema)
| AsyncSetServiceSchema (service_desc : ServiceDescription)
| AsyncRemove.

Definition service_desc_of (phone_numbers : list string) : ServiceDescription :=
  mkServiceDescription
    "Send Message"
    [ATTR_TARGET; ATTR_MESSAGE; ATTR_MEDIA_URL]
    (mkSelectSelector phone_numbers false).

Definition _update_service_schema (hass : HomeAssistant)
  : HomeAssistant * list ServiceApiCall :=
  let phone_numbers := _get_all_phone_numbers hass in
  let service_desc := service_desc_of phone_numbers in
  (mkHass (domain_data hass) (service hass) (Some service_desc),
   [AsyncSetServiceSchema service_desc]).

(** ** Templates, logging and the provider *)

Record Template := mkTemplate { template_source : string }.

(** A value that went through [cv.template] or was left a plain string. *)
Inductive TemplateOrStr :=
| IsTemplate (tpl : Template)
| IsStr (s : string).

(** [twilio.base.exceptions.TwilioRestException]. *)
Record TwilioRestException := mkRestException {
  status : Z;
  code : option Z;
  msg : string
}.

Inductive Level := DEBUG | WARNING | ERROR.

Inductive LogArg :=
| ArgStr (s : string)
| ArgMedia (media_urls : option (list string))
| ArgErr (err : TwilioRestException).

(** Keyword arguments of [client.messages.create]. *)
Record CreateKwargs := mkCreateKwargs {
  to : string;
  from_ : string;
  body : string;
  media_url : option (list string)
}.

(** What a run of the integration does to the outside, in order. *)
Inductive Event :=
| Logged (level : Level) (fmt : string) (args : list LogArg)
| MessagesCreate (c : Client) (kwargs : CreateKwargs).

(** Result of one [client.messages.create]: delivered to the provider, a
    provider error, or any exception that is not a [TwilioRestException]. *)
Inductive CreateResult :=
| Created
| RaisedRest (err : TwilioRestException)
| RaisedOther.

(** The collaborators the dispatcher calls: the host's template engine
    ([None] when [async_render] raises [TemplateError]), the host's
    [get_url] ([None] when it raises) and the provider, whose answer may
    depend on how many sends the invocation has made so far. *)
Record Host := mkHost {
  async_render : Template -> option string;
  get_url : option string;
  messages_create : nat -> Client -> CreateKwargs -> CreateResult
}.

(** [None] when the template engine raises; [str(tpl)] of a plain string
    never does. *)
Definition _render_template (host : Host) (tpl : TemplateOrStr)
  : option string :=
  match tpl with
  | IsTemplate t => async_render host t
  | IsStr s => Some s
  end.

Definition _get_external_url (hass : HomeAssistant) : option string :=
  option_map external_url
    (find (fun entry_data => truthy (external_url entry_data)) (entries hass)).

Definition _is_debug_enabled (hass : HomeAssistant) : bool :=
  existsb debug (entries hass).

Definition is_falsy (base_url : option string) : bool :=
  match base_url with
  | Some s => negb (truthy s)
  | None => true
  end.

Definition MSG_NO_EXTERNAL_URL :=
  "Could not get external URL for local path %s. Configure external URL in integration settings.".

(** The body of the prefix loop of [_convert_local_path_to_url], entered
    once a prefix matches. *)
Definition rewrite_local_path (host : Host) (hass : HomeAssistant)
  (path : string) : list Event * string :=
  let base_url := _get_external_url hass in
  let base_url := if is_falsy base_url then get_url host else base_url in
  match base_url with
  | None => ([Logged WARNING MSG_NO_EXTERNAL_URL [ArgStr path]], path)
  | Some base_url =>
      let full_url := (rstrip_slash base_url ++ path)%string in
      ((if _is_debug_enabled hass
        then [Logged WARNING "Twilio SMS Debug: Converted %s to %s"
                [ArgStr path; ArgStr full_url]]
        else []),
       full_url)
  end.

Fixpoint convert_prefix_loop (host : Host) (hass : HomeAssistant)
  (path : string) (prefixes : list string) : list Event * string :=
  match prefixes with
  | [] => ([], path)
  | prefix :: rest =>
      if startswith path prefix
      then rewrite_local_path host hass path
      else convert_prefix_loop host hass path rest
  end.

Definition _convert_local_path_to_url (host : Host) (hass : HomeAssistant)
  (path : string) : list Event * string :=
  if startswith_any path ["http://"; "https://"]
  then ([], path)
  else convert_prefix_loop host hass path LOCAL_PATH_PREFIXES.

(** ** The [send_message] handler *)

Record ServiceCall := mkServiceCall {
  call_target : list TemplateOrStr;
  call_message : TemplateOrStr;
  call_media_url : option (list TemplateOrStr);
  call_from_number : string
}.

Inductive Completion := Returned | Raised.

Definition _send_twilio_message_kwargs (to_ body_ from_number : string)
  (media_urls : option (list string)) : CreateKwargs :=
  mkCreateKwargs to_ from_number body_
    (match media_urls with
     | Some (_ :: _) => media_urls
     | _ => None
     end).

(** The list comprehension over [targets_raw]: the values are rendered in
    turn, and the first template that fails to render raises. *)
Fixpoint render_all (host : Host) (values : list TemplateOrStr)
  : option (list string) :=
  match values with
  | [] => Some []
  | value :: rest =>
      match _render_template host value with
      | None => None
      | Some s => option_map (cons s) (render_all host rest)
      end
  end.

(** The list comprehension over [media_urls_raw]: each reference is rendered
    and converted in turn.  When a reference fails to render the exception
    leaves the comprehension; what the conversions before it logged stays
    logged. *)
Fixpoint convert_media (host : Host) (hass : HomeAssistant)
  (raw : list TemplateOrStr) : list Event * option (list string) :=
  match raw with
  | [] => ([], Some [])
  | url :: rest =>
      match _render_template host url with
      | None => ([], None)
      | Some path =>
          let '(ev, u) := _convert_local_path_to_url host hass path in
          let '(evs, us) := convert_media host hass rest in
          (ev ++ evs, option_map (cons u) us)
      end
  end.

(** The search for the entry owning [from_number]. *)
Definition find_entry_client (hass : HomeAssistant) (from_number : string)
  : option Client :=
  option_map client
    (find (fun entry_data => py_in from_number (phone_numbers entry_data))
       (entries hass)).

(** The loop over the rendered targets; [sent] counts the provider calls the
    invocation has made before this iteration. *)
Fixpoint send_loop (host : Host) (hass : HomeAssistant) (entry_client : Client)
  (message from_number : string) (media_urls : option (list string))
  (sent : nat) (targets : list string) : list Event * Completion :=
  match targets with
  | [] => ([], Returned)
  | target :: rest =>
      let dbg :=
        if _is_debug_enabled hass
        then [Logged WARNING
                "Twilio SMS Debug: Sending to %s from %s with media_urls: %s"
                [ArgStr target; ArgStr from_number; ArgMedia media_urls]]
        else [] in
      let kwargs :=
        _send_twilio_message_kwargs target message from_number media_urls in
      let continue_ (ev : list Event) :=
        let '(evs, c) :=
          send_loop host hass entry_client message from_number media_urls
            (S sent) rest in
        (dbg ++ MessagesCreate entry_client kwargs :: ev ++ evs, c) in
      match messages_create host sent entry_client kwargs with
      | Created => continue_ [Logged DEBUG "SMS sent to %s" [ArgStr target]]
      | RaisedRest err =>
          continue_ [Logged ERROR "Failed to send SMS to %s: %s"
                       [ArgStr target; ArgErr err]]
      | RaisedOther => (dbg ++ [MessagesCreate entry_client kwargs], Raised)
      end
  end.

(** The handler has no [try] around the rendering of its inputs: a
    template that fails to render ends the invocation with the exception,
    before the sender number is looked at. *)
Definition async_send_message (host : Host) (hass : HomeAssistant)
  (call : ServiceCall) : list Event * Completion :=
  let from_number := call_from_number call in
  match render_all host (call_target call) with
  | None => ([], Raised)
  | Some targets =>
  match _render_template host (call_message call) with
  | None => ([], Raised)
  | Some message =>
  let '(media_events, media) :=
    match call_media_url call with
    | Some ((_ :: _) as media_urls_raw) =>
        let '(ev, urls) := convert_media host hass media_urls_raw in
        (ev, option_map Some urls)
    | _ => ([], Some None)
    end in
  match media with
  | None => (media_events, Raised)
  | Some media_urls =>
  let all_numbers := _get_all_phone_numbers hass in
  if negb (py_in from_number all_numbers)
  then (media_events ++
          [Logged ERROR "from_number %s not in configured numbers"
             [ArgStr from_number]],
        Returned)
  else
    match find_entry_client hass from_number with
    | None =>
        (media_events ++
           [Logged ERROR "No client found for from_number %s"
              [ArgStr from_number]],
         Returned)
    | Some entry_client =>
        let '(evs, c) :=
          send_loop host hass entry_client message from_number media_urls
            0 targets in
        (media_events ++ evs, c)
    end
  end
  end
  end.

(** ** Entry lifecycle *)

(** The fields of a [ConfigEntry] the integration reads: [entry.data] always
    holds the credentials, every other key may be missing from [entry.data]
    and from [entry.options]. *)
Record ConfigEntry := mkConfigEntry {
  entry_id : string;
  data_account_sid : string;
  data_auth_token : string;
  data_phone_numbers : option (list string);
  data_external_url : option string;
  data_debug : option bool;
  options_phone_numbers : option (list string);
  options_external_url : option string;
  options_debug : option bool
}.

(** [mapping.get(key, default)], given the result of the lookup. *)
Definition get_or {A : Type} (found : option A) (default : A) : A :=
  match found with
  | Some v => v
  | None => default
  end.

Definition entry_data_of (entry : ConfigEntry) : EntryData :=
  mkEntryData
    (mkClient (data_account_sid entry) (data_auth_token entry))
    (get_or (options_phone_numbers entry) (get_or (data_phone_numbers entry) []))
    (get_or (options_external_url entry) (get_or (data_external_url entry) ""))
    (get_or (options_debug entry) (get_or (data_debug entry) false)).

Definition async_setup_entry (hass : HomeAssistant) (entry : ConfigEntry)
  : HomeAssistant * list ServiceApiCall :=
  let entry_data := entry_data_of entry in
  let phone_numbers := phone_numbers entry_data in
  let data := PyDict.set (entry_id entry) entry_data (get_or (domain_data hass) []) in
  let '(registered, calls) :=
    match service hass with
    | Some schema => (Some schema, [])
    | None =>
        let schema := _get_service_schema phone_numbers in
        (Some schema, [AsyncRegister schema])
    end in
  let '(hass', calls') :=
    _update_service_schema (mkHass (Some data) registered (description hass)) in
  (hass', calls ++ calls').

(** [None] stands for the [KeyError] of [hass.data[DOMAIN]] or of [pop]. *)
Definition async_unload_entry (hass : HomeAssistant) (entry : ConfigEntry)
  : option (HomeAssistant * list ServiceApiCall) :=
  match domain_data hass with
  | None => None
  | Some data =>
      match PyDict.pop (entry_id entry) data with
      | None => None
      | Some [] => Some (mkHass (Some []) None (description hass), [AsyncRemove])
      | Some data' =>
          Some (_update_service_schema
                  (mkHass (Some data') (service hass) (description hass)))
      end
  end.

(** The host drives the registry through activations and deactivations only. *)
Inductive reachable : HomeAssistant -> Prop :=
| reachable_initial : reachable initial_hass
| reachable_setup hass entry :
    reachable hass -> reachable (fst (async_setup_entry hass entry))
| reachable_unload hass entry hass' calls :
    reachable hass ->
    async_unload_entry hass entry = Some (hass', calls) ->
    reachable hass'.

Definition has_service (hass : HomeAssistant) : bool :=
  match service hass with Some _ => true | None => false end.

Definition count_register (calls : list ServiceApiCall) : nat :=
  length (filter (fun c => match c with AsyncRegister _ => true | _ => false end)
            calls).

(** ** Views of an event trace *)

Definition provider_calls (trace : list Event) : list (Client * CreateKwargs) :=
  flat_map (fun ev => match ev with
                      | MessagesCreate c kw => [(c, kw)]
                      | Logged _ _ _ => []
                      end) trace.

Definition logged_at (lvl : Level) (trace : list Event)
  : list (string * list LogArg) :=
  flat_map (fun ev => match ev, lvl with
                      | Logged DEBUG f a, DEBUG
                      | Logged WARNING f a, WARNING
                      | Logged ERROR f a, ERROR => [(f, a)]
                      | _, _ => []
                      end) trace.

(** ** config_flow.py: the credential step *)

(** Generic result of a call into the provider's SDK. *)
Inductive SdkResult (A : Type) :=
| SdkOk (a : A)
| SdkRestException (err : TwilioRestException)
| SdkOtherException.
Arguments SdkOk {A} a.
Arguments SdkRestException {A} err.
Arguments SdkOtherException {A}.

(** An element of [client.incoming_phone_numbers.list()]. *)
Record IncomingPhoneNumber := mkIncoming {
  sid : string;
  phone_number : string;
  friendly_name : option string
}.

(** The dictionaries built by [validate_credentials]. *)
Record NumberInfo := mkNumberInfo {
  info_sid : string;
  info_phone_number : string;
  info_friendly_name : string
}.

Definition Provider := string -> string -> SdkResult (list IncomingPhoneNumber).

Definition validate_credentials (provider : Provider)
  (account_sid auth_token : string) : SdkResult (list NumberInfo) :=
  match provider account_sid auth_token with
  | SdkOk numbers =>
      SdkOk
        (map (fun number =>
                mkNumberInfo (sid number) (phone_number number)
                  (match friendly_name number with
                   | Some name => if truthy name then name else phone_number number
                   | None => phone_number number
                   end))
           numbers)
  | SdkRestException err => SdkRestException err
  | SdkOtherException => SdkOtherException
  end.

Record TwilioConfigFlow := mkConfigFlow {
  _account_sid : option string;
  _auth_token : option string;
  _available_numbers : list NumberInfo
}.

Definition new_config_flow : TwilioConfigFlow := mkConfigFlow None None [].

Inductive FormSchema :=
| CredentialSchema
| SelectNumbersSchema (number_options : PyDict.t string).

Inductive FlowResult :=
| ShowForm (step_id : string) (data_schema : FormSchema) (errors : PyDict.t string).

(** [async_step_select_numbers()] as [async_step_user] calls it, that is with
    [user_input] left at [None]: the selection form is built and shown. *)
Definition async_step_select_numbers (self : TwilioConfigFlow) : FlowResult :=
  let number_options :=
    fold_left
      (fun acc num =>
         PyDict.set (info_phone_number num)
           (info_friendly_name num ++ " (" ++ info_phone_number num ++ ")")%string
           acc)
      (_available_numbers self) [] in
  ShowForm "select_numbers" (SelectNumbersSchema number_options) [].

Definition show_user_form (errors : PyDict.t string) : FlowResult :=
  ShowForm "user" CredentialSchema errors.

Definition async_step_user (provider : Provider) (self : TwilioConfigFlow)
  (user_input : option (string * string))
  : TwilioConfigFlow * list Event * FlowResult :=
  match user_input with
  | None => (self, [], show_user_form [])
  | Some (account_sid, auth_token) =>
      let self :=
        mkConfigFlow (Some account_sid) (Some auth_token)
          (_available_numbers self) in
      match validate_credentials provider account_sid auth_token with
      | SdkOk numbers =>
          let self :=
            mkConfigFlow (_account_sid self) (_auth_token self) numbers in
          match numbers with
          | [] => (self, [], show_user_form [("base", "no_phone_numbers")])
          | _ :: _ => (self, [], async_step_select_numbers self)
          end
      | SdkRestException err =>
          (self,
           [Logged ERROR "Twilio authentication failed: %s" [ArgErr err]],
           show_user_form
             [("base",
               match code err with
               | Some c => if Z.eqb c 20003 then "invalid_auth" else "cannot_connect"
               | None => "cannot_connect"
               end)])
      | SdkOtherException =>
          (self,
           [Logged ERROR "Unexpected error during Twilio authentication" []],
           show_user_form [("base", "unknown")])
      end
  end.

(** ** Vocabulary of the statements *)

(** [s] begins with [p]. *)
Definition starts_with (s p : string) : Prop :=
  exists rest, s = (p ++ rest)%string.

(** [s] has [p] as its last characters. *)
Definition ends_with (s p : string) : Prop :=
  exists front, s = (front ++ p)%string.

(** A media reference that [_convert_local_path_to_url] rewrites: not an
    absolute network address, and under one of the local prefixes. *)
Definition is_local_reference (path : string) : Prop :=
  ~ starts_with path "http://" /\ ~ starts_with path "https://"
  /\ exists prefix, In prefix LOCAL_PATH_PREFIXES /\ starts_with path prefix.

(** A run of [k] slashes. *)
Fixpoint slashes (k : nat) : string :=
  match k with
  | O => EmptyString
  | S k' => String "/" (slashes k')
  end.

(** The values the handler works with once its inputs are rendered: the
    targets, the message, and the converted media list ([None] when the call
    has no media reference). *)
Record Rendered := mkRendered {
  r_targets : list string;
  r_message : string;
  r_media : option (list string)
}.

(** The first part of the handler, up to the sender test: what it logs, and
    the rendered values, or [None] when a template raised. *)
Definition render_call (host : Host) (hass : HomeAssistant)
  (call : ServiceCall) : list Event * option Rendered :=
  match render_all host (call_target call) with
  | None => ([], None)
  | Some targets =>
      match _render_template host (call_message call) with
      | None => ([], None)
      | Some message =>
          match call_media_url call with
          | Some ((_ :: _) as media_urls_raw) =>
              (fst (convert_media host hass media_urls_raw),
               option_map (fun urls => mkRendered targets message (Some urls))
                 (snd (convert_media host hass media_urls_raw)))
          | _ => ([], Some (mkRendered targets message None))
          end
      end
  end.

(** A media reference that is rewritten: neither an absolute address nor
    outside the local prefixes. *)
Definition is_local_b (path : string) : bool :=
  negb (startswith_any path ["http://"; "https://"])
  && startswith_any path LOCAL_PATH_PREFIXES.

(** The unknown-sender claim read to the letter. *)
Definition unknown_sender_logs_one_error : Prop :=
  forall host hass call,
    ~ In (call_from_number call) (_get_all_phone_numbers hass) ->
    provider_calls (fst (async_send_message host hass call)) = []
    /\ length (logged_at ERROR (fst (async_send_message host hass call))) = 1.

(** The fan-out claim read to the letter, for a known sender and inputs that
    render. *)
Definition one_send_per_target : Prop :=
  forall host hass call ev r,
    In (call_from_number call) (_get_all_phone_numbers hass) ->
    render_call host hass call = (ev, Some r) ->
    length (provider_calls (fst (async_send_message host hass call)))
    = length (r_targets r).

(** The provider answers every send with success or with a provider error. *)
Definition provider_errors_only (host : Host) : Prop :=
  forall sent c kwargs, messages_create host sent c kwargs <> RaisedOther.

(** The events of the send to the [i]-th target. *)
Definition target_events (host : Host) (hass : HomeAssistant)
  (entry_client : Client) (message from_number : string)
  (media_urls : option (list string)) (it : nat * string) : list Event :=
  let '(i, target) := it in
  let kwargs :=
    _send_twilio_message_kwargs target message from_number media_urls in
  (if _is_debug_enabled hass
   then [Logged WARNING
           "Twilio SMS Debug: Sending to %s from %s with media_urls: %s"
           [ArgStr target; ArgStr from_number; ArgMedia media_urls]]
   else [])
  ++ MessagesCreate entry_client kwargs
  :: match messages_create host i entry_client kwargs with
     | Created => [Logged DEBUG "SMS sent to %s" [ArgStr target]]
     | RaisedRest err =>
         [Logged ERROR "Failed to send SMS to %s: %s" [ArgStr target; ArgErr err]]
     | RaisedOther => []
     end.

(** The error records of the send to the [i]-th target. *)
Definition target_errors (host : Host) (entry_client : Client)
  (message from_number : string) (media_urls : option (list string))
  (it : nat * string) : list (string * list LogArg) :=
  let '(i, target) := it in
  match messages_create host i entry_client
          (_send_twilio_message_kwargs target message from_number media_urls)
  with
  | RaisedRest err =>
      [("Failed to send SMS to %s: %s"%string, [ArgStr target; ArgErr err])]
  | _ => []
  end.

(** The targets of a list paired with their positions. *)
Definition indexed (from : nat) (targets : list string) : list (nat * string) :=
  combine (seq from (length targets)) targets.

(** The entry owning a sender number: the first one, in registry order, whose
    list holds it. *)
Definition owner_entry (hass : HomeAssistant) (from_number : string)
  : option EntryData :=
  find (fun entry_data => py_in from_number (phone_numbers entry_data))
    (entries hass).

(** The base URL in the words of the specification: the external URL of the
    configuration owning the sender number, else what the host resolves. *)
Definition owner_base_url (host : Host) (hass : HomeAssistant)
  (from_number : string) : option string :=
  match owner_entry hass from_number with
  | Some entry_data =>
      if truthy (external_url entry_data)
      then Some (external_url entry_data)
      else get_url host
  | None => get_url host
  end.

Definition prefers_owner_url : Prop :=
  forall host hass from_number path base,
    is_local_reference path ->
    owner_base_url host hass from_number = Some base ->
    snd (_convert_local_path_to_url host hass path)
    = (rstrip_slash base ++ path)%string.

Definition is_warning (ev : Event) : Prop :=
  match ev with
  | Logged WARNING _ _ => True
  | _ => False
  end.

(** ** Two accounts, used to run the code on concrete inputs *)

Definition account_a : ConfigEntry :=
  mkConfigEntry "entry-a" "ACaaaa" "token-a"
    (Some ["+15550001"; "+15550003"]) (Some "https://a.example/") None
    None None None.

Definition account_b : ConfigEntry :=
  mkConfigEntry "entry-b" "ACbbbb" "token-b"
    (Some ["+15550002"; "+15550003"]) (Some "https://b.example") None
    None None None.

(** The registry after the host has activated [account_a], then [account_b]. *)
Definition two_accounts : HomeAssistant :=
  fst (async_setup_entry (fst (async_setup_entry initial_hass account_a))
         account_b).

(** A template engine that renders every template to its source. *)
Definition render_source (tpl : Template) : option string :=
  Some (template_source tpl).

(** A host that renders a template to its source, resolves no external
    address, and whose provider rejects the second send of an invocation. *)
Definition picky_host : Host :=
  mkHost render_source None
    (fun sent _ _ =>
       match sent with
       | 1 => RaisedRest (mkRestException 400 (Some 21211%Z) "Invalid 'To' Phone Number")
       | _ => Created
       end).

(** A host whose template engine fails on every template. *)
Definition brittle_host : Host :=
  mkHost (fun _ => None) None (fun _ _ _ => Created).

(** A host whose provider call raises something else than a
    [TwilioRestException] at the second send. *)
Definition offline_host : Host :=
  mkHost render_source None
    (fun sent _ _ => match sent with 1 => RaisedOther | _ => Created end).

(** The deactivation claim read to the letter: once an entry is unloaded and
    others remain, none of its numbers is listed by the published
    description. *)
Definition unload_omits_removed_numbers : Prop :=
  forall hass entry hass' calls data entry_data desc,
    reachable hass ->
    domain_data hass = Some data ->
    PyDict.get (entry_id entry) data = Some entry_data ->
    async_unload_entry hass entry = Some (hass', calls) ->
    entries hass' <> [] ->
    description hass' = Some desc ->
    forall n, In n (phone_numbers entry_data) ->
              ~ In n (options (desc_from_number desc)).

(** ** config_flow.py: the selection step and the options flow *)

(** What the wizard takes from outside: Python's [str.strip] and the host's
    verdict on the unique id of the flow ([async_set_unique_id] followed by
    [_abort_if_unique_id_configured]), which is the reason of the abort when
    the host ends the flow. *)
Record FlowEnv := mkFlowEnv {
  str_strip : string -> string;
  unique_id_abort : option string -> option string
}.

(** The dictionary comprehension behind the options of the number selector:
    a later number with the same key replaces the label. *)
Definition number_options_of (available : list NumberInfo) : PyDict.t string :=
  fold_left
    (fun acc num =>
       PyDict.set (info_phone_number num)
         (info_friendly_name num ++ " (" ++ info_phone_number num ++ ")")%string
         acc)
    available [].

(** [user_input.get(CONF_EXTERNAL_URL, "").strip().rstrip("/")]. *)
Definition normalize_url (env : FlowEnv) (raw : option string) : string :=
  rstrip_slash (str_strip env (get_or raw "")).

Module ConfigFlow.

(** The [user_input] of the selection step. *)
Record UserInput := mkUserInput {
  input_phone_numbers : option (list string);
  input_external_url : option string
}.

(** The [data] of the entry the wizard creates. *)
Record EntryDict := mkEntryDict {
  new_account_sid : option string;
  new_auth_token : option string;
  new_phone_numbers : list string;
  new_external_url : string
}.

Inductive Outcome :=
| Form (form : FlowResult)
| CreateEntry (title : string) (data : EntryDict)
| Abort (reason : string).

Definition async_step_select_numbers (env : FlowEnv) (self : TwilioConfigFlow)
  (user_input : option UserInput) : Outcome :=
  let show errors :=
    Form (ShowForm "select_numbers"
            (SelectNumbersSchema (number_options_of (_available_numbers self)))
            errors) in
  match user_input with
  | None => show []
  | Some input =>
      let selected_numbers := get_or (input_phone_numbers input) [] in
      let external_url := normalize_url env (input_external_url input) in
      match selected_numbers with
      | [] => show [("base", "no_selection")]
      | _ :: _ =>
          match unique_id_abort env (_account_sid self) with
          | Some reason => Abort reason
          | None =>
              CreateEntry "Twilio SMS"
                (mkEntryDict (_account_sid self) (_auth_token self)
                   selected_numbers external_url)
          end
      end
  end.

End ConfigFlow.

Module OptionsFlow.

(** The [user_input] of the options step. *)
Record UserInput := mkUserInput {
  input_phone_numbers : option (list string);
  input_external_url : option string;
  input_debug : option bool
}.

(** The [data] of the options entry the step creates. *)
Record OptionsDict := mkOptionsDict {
  new_phone_numbers : list string;
  new_external_url : string;
  new_debug : bool
}.

(** The form of the step: its defaults and the options of the selector. *)
Record InitSchema := mkInitSchema {
  default_phone_numbers : list string;
  default_external_url : string;
  default_debug : bool;
  number_options : PyDict.t string
}.

Inductive Outcome :=
| Form (step_id : string) (data_schema : option InitSchema)
    (errors : PyDict.t string)
| CreateEntry (title : string) (data : OptionsDict).

(** [async_step_init]: [available] is [self._available_numbers] before the
    call; the result holds its value after the call. *)
Definition async_step_init (env : FlowEnv) (provider : Provider)
  (config_entry : ConfigEntry) (available : list NumberInfo)
  (user_input : option UserInput)
  : list NumberInfo * list Event * Outcome :=
  match validate_credentials provider (data_account_sid config_entry)
          (data_auth_token config_entry) with
  | SdkRestException _ | SdkOtherException =>
      (available,
       [Logged ERROR "Failed to fetch phone numbers" []],
       Form "init" None [("base", "cannot_connect")])
  | SdkOk numbers =>
      let show errors :=
        Form "init"
          (Some (mkInitSchema
                   (get_or (options_phone_numbers config_entry)
                      (get_or (data_phone_numbers config_entry) []))
                   (get_or (options_external_url config_entry)
                      (get_or (data_external_url config_entry) ""))
                   (get_or (options_debug config_entry)
                      (get_or (data_debug config_entry) false))
                   (number_options_of numbers)))
          errors in
      match user_input with
      | None => (numbers, [], show [])
      | Some input =>
          let selected_numbers := get_or (input_phone_numbers input) [] in
          let external_url := normalize_url env (input_external_url input) in
          let debug := get_or (input_debug input) false in
          match selected_numbers with
          | [] => (numbers, [], show [("base", "no_selection")])
          | _ :: _ =>
              (numbers, [],
               CreateEntry "" (mkOptionsDict selected_numbers external_url debug))
          end
      end
  end.

End OptionsFlow.

(** A sample environment: nothing to strip, the host aborts for the account
    of [account_a]. *)
Definition sample_env : FlowEnv :=
  mkFlowEnv (fun s => s)
    (fun unique_id =>
       match unique_id with
       | Some sid => if String.eqb sid "ACaaaa" then Some "already_configured" else None
       | None => None
       end).

(** The base URL [rewrite_local_path] ends up with: the registry's, else the
    host's, else none. *)
Definition resolved_base_url (host : Host) (hass : HomeAssistant)
  : option string :=
  match _get_external_url hass with
  | Some base => Some base
  | None => get_url host
  end.

(** A call value that is a plain string, not a template. *)
Definition is_plain (value : TemplateOrStr) : Prop :=
  match value with
  | IsStr _ => True
  | IsTemplate _ => False
  end.

(** An invocation none of whose values is a template. *)
Definition all_plain (call : ServiceCall) : Prop :=
  Forall is_plain (call_target call)
  /\ is_plain (call_message call)
  /\ forall refs, call_media_url call = Some refs -> Forall is_plain refs.

(** * Properties *)

(** ** Membership and list helpers *)

Lemma py_in_In x l : py_in x l = true <-> In x l.
Proof.
  unfold py_in. rewrite existsb_exists. split.
  - intros [y [Hy He]]. apply String.eqb_eq in He. now subst.
  - intros H. exists x. split; [assumption | apply String.eqb_refl].
Qed.

Lemma py_in_false x l : py_in x l = false <-> ~ In x l.
Proof.
  rewrite <- py_in_In. destruct (py_in x l); split; congruence.
Qed.

Lemma py_in_app x l1 l2 : py_in x (l1 ++ l2) = py_in x l1 || py_in x l2.
Proof. apply existsb_app. Qed.

Lemma filter_twice {A} (p q : A -> bool) l :
  filter p (filter q l) = filter (fun y => q y && p y) l.
Proof.
  induction l as [|a l IH]; simpl; [reflexivity|].
  destruct (q a); simpl; [destruct (p a)|]; now rewrite IH.
Qed.

Lemma fold_left_concat {A B} (f : A -> B -> A) (ls : list (list B)) a :
  fold_left (fun acc l => fold_left f l acc) ls a = fold_left f (concat ls) a.
Proof.
  revert a. induction ls as [|l ls IH]; intros a; simpl; [reflexivity|].
  now rewrite fold_left_app, IH.
Qed.

(** ** The aggregate sender list *)

Lemma all_numbers_scan hass :
  _get_all_phone_numbers hass =
  fold_left append_if_absent (concat (map phone_numbers (entries hass))) [].
Proof.
  unfold _get_all_phone_numbers.
  rewrite <- fold_left_concat.
  generalize (@nil string). induction (entries hass) as [|e es IH]; intros acc.
  - reflexivity.
  - simpl. apply IH.
Qed.

Lemma scan_keep_first l : forall acc,
  fold_left append_if_absent l acc =
  acc ++ filter (fun y => negb (py_in y acc)) (keep_first l).
Proof.
  induction l as [|x r IH]; intros acc; simpl.
  - now rewrite app_nil_r.
  - rewrite IH. unfold append_if_absent.
    destruct (py_in x acc) eqn:Hx; simpl.
    + f_equal. rewrite filter_twice. apply filter_ext. intros y.
      destruct (String.eqb_spec x y) as [->|Hne]; simpl; [|reflexivity].
      now rewrite Hx.
    + rewrite <- app_assoc. simpl. do 2 f_equal.
      rewrite filter_twice. apply filter_ext. intros y.
      rewrite py_in_app. simpl. rewrite orb_false_r, negb_orb.
      rewrite (String.eqb_sym y x). apply andb_comm.
Qed.

Lemma keep_first_In l : forall n, In n (keep_first l) <-> In n l.
Proof.
  induction l as [|x r IH]; intros n; simpl; [tauto|].
  rewrite filter_In, IH.
  destruct (String.eqb_spec x n) as [->|Hne]; simpl; intuition congruence.
Qed.

Lemma keep_first_NoDup l : NoDup (keep_first l).
Proof.
  induction l as [|x r IH]; simpl; constructor.
  - rewrite filter_In, String.eqb_refl. simpl. intros [_ H]. discriminate.
  - now apply NoDup_filter.
Qed.

Lemma all_numbers_keep_first hass :
  _get_all_phone_numbers hass =
  keep_first (concat (map phone_numbers (entries hass))).
Proof.
  rewrite all_numbers_scan, scan_keep_first. simpl. apply filter_true.
Qed.

Lemma all_numbers_In hass n :
  In n (_get_all_phone_numbers hass) <->
  exists entry_data, In entry_data (entries hass) /\ In n (phone_numbers entry_data).
Proof.
  rewrite all_numbers_keep_first, keep_first_In, in_concat. split.
  - intros [l [Hl Hn]]. apply in_map_iff in Hl as [e [<- He]]. eauto.
  - intros [e [He Hn]]. exists (phone_numbers e). split; [now apply in_map|assumption].
Qed.

(** A number first met after the prefix [p] of the concatenated lists stands
    in the aggregate list right after the numbers of [p]. *)
Lemma keep_first_position p x q :
  ~ In x p ->
  exists r2, keep_first (p ++ x :: q) = keep_first p ++ x :: r2.
Proof.
  intros Hx.
  pose proof (scan_keep_first (p ++ x :: q) []) as H. simpl in H.
  rewrite filter_true in H. rewrite <- H.
  rewrite fold_left_app. simpl.
  pose proof (scan_keep_first p []) as Hp. simpl in Hp.
  rewrite filter_true in Hp. rewrite Hp.
  unfold append_if_absent at 2.
  assert (Hf : py_in x (keep_first p) = false).
  { apply py_in_false. now rewrite keep_first_In. }
  rewrite Hf, scan_keep_first, <- app_assoc. simpl. eauto.
Qed.

(** C1: the aggregate sender list is the union of the entries' number lists
    with repetitions dropped: it equals the first-occurrence de-duplication
    of the lists taken in registry order, holds no number twice, holds
    exactly the numbers some entry lists, and places each number after
    exactly those met before its first occurrence. *)
Theorem aggregate_is_dedup_union (hass : HomeAssistant) :
  let lists := map phone_numbers (entries hass) in
  let all_numbers := _get_all_phone_numbers hass in
  all_numbers = dedup_union lists
  /\ NoDup all_numbers
  /\ (forall n, In n all_numbers <-> exists l, In l lists /\ In n l)
  /\ (forall p x q, concat lists = p ++ x :: q -> ~ In x p ->
        exists r1 r2, all_numbers = r1 ++ x :: r2
                      /\ forall y, In y r1 <-> In y p).
Proof.
  cbv zeta. split; [|split; [|split]].
  - apply all_numbers_keep_first.
  - rewrite all_numbers_keep_first. apply keep_first_NoDup.
  - intros n. rewrite all_numbers_keep_first, keep_first_In. apply in_concat.
  - intros p x q Hc Hx. rewrite all_numbers_keep_first, Hc.
    destruct (keep_first_position p x q Hx) as [r2 Hr].
    exists (keep_first p), r2. split; [assumption|].
    intros y. apply keep_first_In.
Qed.

(** ** Strings *)

Lemma startswith_spec s p : startswith s p = true <-> starts_with s p.
Proof.
  unfold startswith, starts_with. revert s.
  induction p as [|c p IH]; intros s; simpl.
  - split; [intros _; now exists s | intros _; now destruct s].
  - destruct s as [|d s]; simpl.
    + split; [discriminate | intros [r Hr]; discriminate].
    + destruct (Ascii.ascii_dec c d) as [->|Hne].
      * rewrite IH. split; intros [r Hr]; exists r; congruence.
      * split; [discriminate | intros [r Hr]; congruence].
Qed.

Lemma startswith_false s p : startswith s p = false <-> ~ starts_with s p.
Proof.
  rewrite <- startswith_spec. destruct (startswith s p); split; congruence.
Qed.

Lemma string_app_assoc (a b c : string) :
  ((a ++ b) ++ c = a ++ (b ++ c))%string.
Proof. induction a as [|x a IH]; simpl; [reflexivity | now rewrite IH]. Qed.

Lemma string_app_nil_r (a : string) : (a ++ "")%string = a.
Proof. induction a as [|x a IH]; simpl; [reflexivity | now rewrite IH]. Qed.

Lemma string_app_length (a b : string) :
  String.length (a ++ b) = String.length a + String.length b.
Proof. induction a as [|x a IH]; simpl; [reflexivity | now rewrite IH]. Qed.

(** Two ways of cutting one string: the shorter front is a front of the
    longer one. *)
Lemma string_app_cut (a : string) : forall s x y,
  (a ++ x = s ++ y)%string -> String.length a <= String.length s ->
  exists m, s = (a ++ m)%string /\ x = (m ++ y)%string.
Proof.
  induction a as [|c a IH]; intros s x y H Hlen; simpl in *.
  - exists s. split; [reflexivity | assumption].
  - destruct s as [|d s]; simpl in *; [lia|].
    injection H as -> H.
    destruct (IH s x y H ltac:(lia)) as [m [-> ->]].
    exists m. split; reflexivity.
Qed.

Lemma rstrip_slash_decompose s :
  exists k, s = (rstrip_slash s ++ slashes k)%string.
Proof.
  induction s as [|c s [k IH]]; simpl.
  - exists 0. reflexivity.
  - destruct (rstrip_slash s) as [|d r] eqn:Hr; simpl in IH.
    + destruct (Ascii.eqb_spec c "/") as [->|Hne].
      * exists (S k). simpl. now f_equal.
      * exists k. simpl. now f_equal.
    + exists k. simpl. now f_equal.
Qed.

Lemma rstrip_slash_no_trailing s : ~ ends_with (rstrip_slash s) "/".
Proof.
  induction s as [|c s IH]; simpl; intros [front H].
  - destruct front; discriminate.
  - destruct (rstrip_slash s) as [|d r] eqn:Hr.
    + destruct (Ascii.eqb_spec c "/") as [->|Hne]; simpl in H.
      * destruct front; discriminate.
      * destruct front as [|x [|y front]]; simpl in H; try discriminate.
        congruence.
    + destruct front as [|x front]; simpl in H; [discriminate|].
      injection H as _ H. apply IH. exists front. exact H.
Qed.

(** ** Rewriting of media references *)

Lemma get_external_url_first hass base :
  _get_external_url hass = Some base <->
  exists pre entry_data post,
    entries hass = pre ++ entry_data :: post
    /\ external_url entry_data = base
    /\ base <> ""%string
    /\ forall e, In e pre -> external_url e = ""%string.
Proof.
  unfold _get_external_url. induction (entries hass) as [|e es IH]; simpl.
  - split; [discriminate | intros [[|? ?] [? [? [H _]]]]; discriminate].
  - destruct (truthy (external_url e)) eqn:Ht; simpl.
    + split.
      * intros [= <-]. exists [], e, es. repeat split; try easy.
        intros E. now rewrite E in Ht.
      * intros [pre [x [post [Hl [Hx [Hne Hpre]]]]]].
        destruct pre as [|y pre]; simpl in Hl; injection Hl as <- _.
        -- now subst.
        -- rewrite (Hpre e (or_introl eq_refl)) in Ht. discriminate.
    + rewrite IH. split.
      * intros [pre [x [post [-> [Hx [Hne Hpre]]]]]].
        exists (e :: pre), x, post. repeat split; try easy.
        intros e' [<-|He']; [|now apply Hpre].
        now destruct (external_url e).
      * intros [pre [x [post [Hl [Hx [Hne Hpre]]]]]].
        destruct pre as [|y pre]; simpl in Hl; injection Hl as <- Hl.
        -- subst. now destruct (external_url e).
        -- exists pre, x, post. repeat split; try easy.
           intros e' He'. apply Hpre. now right.
Qed.

Lemma get_external_url_truthy hass base :
  _get_external_url hass = Some base -> truthy base = true.
Proof.
  intros H. apply get_external_url_first in H as [_ [_ [_ [_ [_ [H _]]]]]].
  now destruct base.
Qed.

Lemma convert_local host hass path :
  is_local_reference path ->
  _convert_local_path_to_url host hass path = rewrite_local_path host hass path.
Proof.
  intros [H1 [H2 [prefix [Hin Hp]]]].
  apply startswith_false in H1, H2. apply startswith_spec in Hp.
  unfold _convert_local_path_to_url, startswith_any. simpl.
  rewrite H1, H2. simpl.
  destruct Hin as [<-|[<-|[<-|[]]]]; rewrite Hp;
    repeat match goal with
           | |- context [if startswith ?s ?p then _ else _] =>
               destruct (startswith s p)
           end; reflexivity.
Qed.

Lemma rewrite_with_base host hass path base :
  (_get_external_url hass = Some base
   \/ (_get_external_url hass = None /\ get_url host = Some base)) ->
  rewrite_local_path host hass path =
  ((if _is_debug_enabled hass
    then [Logged WARNING "Twilio SMS Debug: Converted %s to %s"
            [ArgStr path; ArgStr (rstrip_slash base ++ path)%string]]
    else []),
   (rstrip_slash base ++ path)%string).
Proof.
  unfold rewrite_local_path. intros [H|[H1 H2]].
  - rewrite H. simpl. now rewrite (get_external_url_truthy _ _ H).
  - rewrite H1. simpl. now rewrite H2.
Qed.

Lemma rewrite_without_base host hass path :
  _get_external_url hass = None -> get_url host = None ->
  rewrite_local_path host hass path =
  ([Logged WARNING MSG_NO_EXTERNAL_URL [ArgStr path]], path).
Proof.
  unfold rewrite_local_path. intros -> ->. reflexivity.
Qed.

Lemma local_prefix_single_slash path :
  (exists prefix, In prefix LOCAL_PATH_PREFIXES /\ starts_with path prefix) ->
  starts_with path "/" /\ ~ starts_with path "//".
Proof.
  intros [prefix [Hin [rest ->]]].
  destruct Hin as [<-|[<-|[<-|[]]]]; (split; [eexists; reflexivity|]);
    intros [r Hr]; discriminate.
Qed.

(** C10: a media reference that is neither an absolute network address nor
    under one of the three local prefixes comes back from
    [_convert_local_path_to_url] unchanged, with nothing logged, whatever
    the registry and the host hold. *)
Theorem unrecognized_reference_unchanged (host : Host) (hass : HomeAssistant)
  (path : string) :
  ~ starts_with path "http://" ->
  ~ starts_with path "https://" ->
  ~ starts_with path "/local/" ->
  ~ starts_with path "/media/" ->
  ~ starts_with path "/api/" ->
  _convert_local_path_to_url host hass path = ([], path).
Proof.
  intros H1 H2 H3 H4 H5.
  apply startswith_false in H1, H2, H3, H4, H5.
  unfold _convert_local_path_to_url, startswith_any. simpl.
  now rewrite H1, H2, H3, H4, H5.
Qed.

(** C8: with external URL [https://example.com] configured, [/local/photo.jpg]
    becomes [https://example.com/local/photo.jpg]; and for every configured
    base URL, ending in slashes or not, the result is the base without its
    trailing slashes followed by the path, so that no [//] lies across the
    place where the two meet. *)
Theorem local_reference_joined_by_one_slash :
  (forall host hass,
      _get_external_url hass = Some "https://example.com"%string ->
      snd (_convert_local_path_to_url host hass "/local/photo.jpg")
      = "https://example.com/local/photo.jpg"%string)
  /\ (forall host hass base path,
         _get_external_url hass = Some base ->
         is_local_reference path ->
         let url := snd (_convert_local_path_to_url host hass path) in
         let stem := rstrip_slash base in
         url = (stem ++ path)%string
         /\ (exists k, base = (stem ++ slashes k)%string)
         /\ ~ ends_with stem "/"
         /\ forall a b, url = (a ++ "//" ++ b)%string ->
                        String.length a + 2 <= String.length stem
                        \/ String.length stem < String.length a).
Proof.
  assert (G : forall host hass base path,
             _get_external_url hass = Some base ->
             is_local_reference path ->
             snd (_convert_local_path_to_url host hass path)
             = (rstrip_slash base ++ path)%string).
  { intros host hass base path Hb Hl.
    rewrite (convert_local _ _ _ Hl).
    rewrite (rewrite_with_base host hass path base (or_introl Hb)).
    reflexivity. }
  split.
  - intros host hass Hb. rewrite (G host hass _ _ Hb); [reflexivity|].
    repeat split; try (intros [r Hr]; discriminate).
    exists "/local/"%string. split; [now left | now exists "photo.jpg"%string].
  - intros host hass base path Hb Hl. cbv zeta.
    rewrite (G host hass base path Hb Hl).
    split; [reflexivity|]. split; [apply rstrip_slash_decompose|].
    split; [apply rstrip_slash_no_trailing|].
    intros a b Heq.
    destruct Hl as [_ [_ Hp]]. apply local_prefix_single_slash in Hp as [_ Hp].
    destruct (Nat.le_gt_cases (String.length a + 2)
                (String.length (rstrip_slash base))) as [Hle|Hgt];
      [now left|].
    destruct (Nat.lt_ge_cases (String.length (rstrip_slash base))
                (String.length a)) as [Hlt|Hge]; [now right|].
    exfalso. symmetry in Heq.
    destruct (string_app_cut a _ _ _ Heq Hge) as [m [Hs Hm]].
    assert (Hlen : String.length m <= 1).
    { rewrite Hs, string_app_length in Hgt. lia. }
    destruct m as [|c [|d m]]; simpl in Hlen; try lia.
    + simpl in Hm. apply Hp. exists b. now rewrite <- Hm.
    + simpl in Hm. injection Hm as <- _.
      apply (rstrip_slash_no_trailing base). exists a. exact Hs.
Qed.

Lemma local_reference_joined_by_one_slash_witness :
  let hass :=
    mkHass (Some [("e1"%string,
                   mkEntryData (mkClient "AC1" "t1") ["+15550001"%string]
                     "https://example.com//" false)])
      None None in
  snd (_convert_local_path_to_url (mkHost render_source None
                                     (fun _ _ _ => Created))
         hass "/media/clip.mp4")
  = "https://example.com/media/clip.mp4"%string.
Proof.
  intros hass.
  refine (proj1 (proj2 local_reference_joined_by_one_slash _ hass
                   "https://example.com//"%string "/media/clip.mp4"%string
                   eq_refl _)).
  repeat split; try (intros [r Hr]; discriminate).
  exists "/media/"%string. split; [right; now left | now exists "clip.mp4"%string].
Defined.

Lemma unrecognized_reference_unchanged_witness :
  _convert_local_path_to_url
    (mkHost render_source (Some "https://ha.example"%string)
       (fun _ _ _ => Created))
    (mkHass (Some [("e1"%string,
                    mkEntryData (mkClient "AC1" "t1") ["+15550001"%string]
                      "https://example.com" true)])
       None None)
    "www/snapshot.jpg"
  = ([], "www/snapshot.jpg"%string).
Proof.
  apply unrecognized_reference_unchanged; intros [r Hr]; discriminate.
Defined.

(** ** The handler *)

Lemma provider_calls_app t1 t2 :
  provider_calls (t1 ++ t2) = provider_calls t1 ++ provider_calls t2.
Proof. apply flat_map_app. Qed.

Lemma logged_at_app lvl t1 t2 :
  logged_at lvl (t1 ++ t2) = logged_at lvl t1 ++ logged_at lvl t2.
Proof. apply flat_map_app. Qed.

Lemma warnings_silent trace :
  Forall is_warning trace ->
  provider_calls trace = [] /\ logged_at ERROR trace = [].
Proof.
  induction 1 as [|ev trace Hev _ [IH1 IH2]]; [now split|].
  destruct ev as [[| |] f a|]; simpl in Hev; try contradiction.
  simpl. now split.
Qed.

Lemma convert_events_warning host hass path :
  Forall is_warning (fst (_convert_local_path_to_url host hass path)).
Proof.
  assert (R : Forall is_warning (fst (rewrite_local_path host hass path))).
  { unfold rewrite_local_path.
    destruct (if is_falsy (_get_external_url hass) then get_url host
              else _get_external_url hass); simpl.
    - destruct (_is_debug_enabled hass); repeat constructor.
    - repeat constructor. }
  unfold _convert_local_path_to_url.
  destruct (startswith_any path _); [constructor|].
  unfold LOCAL_PATH_PREFIXES. simpl.
  repeat match goal with
         | |- context [if startswith ?s ?p then _ else _] =>
             destruct (startswith s p)
         end; try exact R; constructor.
Qed.

Lemma convert_media_warning host hass raw :
  Forall is_warning (fst (convert_media host hass raw)).
Proof.
  induction raw as [|url raw IH]; simpl; [constructor|].
  destruct (_render_template host url) as [path|]; [|constructor].
  pose proof (convert_events_warning host hass path) as Hc.
  destruct (_convert_local_path_to_url host hass path) as [ev u].
  destruct (convert_media host hass raw) as [evs us]. simpl in *.
  apply Forall_app. now split.
Qed.

Lemma render_call_warning host hass call :
  Forall is_warning (fst (render_call host hass call)).
Proof.
  unfold render_call.
  destruct (render_all host (call_target call)); [|constructor].
  destruct (_render_template host (call_message call)); [|constructor].
  destruct (call_media_url call) as [[|u raw]|]; try constructor.
  apply convert_media_warning.
Qed.

(** What [convert_media] returns when every reference renders. *)
Lemma convert_media_some host hass raw urls :
  snd (convert_media host hass raw) = Some urls ->
  exists paths,
    render_all host raw = Some paths
    /\ urls = map (fun p => snd (_convert_local_path_to_url host hass p)) paths
    /\ fst (convert_media host hass raw)
       = flat_map (fun p => fst (_convert_local_path_to_url host hass p)) paths.
Proof.
  revert urls. induction raw as [|url raw IH]; simpl; intros urls.
  - intros [= <-]. exists []. now repeat split.
  - destruct (_render_template host url) as [path|]; [|discriminate].
    destruct (_convert_local_path_to_url host hass path) as [ev u] eqn:Ec.
    destruct (convert_media host hass raw) as [evs [us|]]; simpl;
      [|discriminate].
    intros [= <-]. destruct (IH us eq_refl) as [paths [-> [-> Hev]]].
    exists (path :: paths). simpl in *. rewrite Ec. simpl.
    repeat split. now rewrite Hev.
Qed.

(** What a successful rendering phase returns, value by value. *)
Lemma render_call_some host hass call ev r :
  render_call host hass call = (ev, Some r) ->
  render_all host (call_target call) = Some (r_targets r)
  /\ _render_template host (call_message call) = Some (r_message r)
  /\ match call_media_url call with
     | Some ((_ :: _) as raw) =>
         exists paths,
           render_all host raw = Some paths
           /\ r_media r
              = Some (map (fun p => snd (_convert_local_path_to_url host hass p))
                        paths)
           /\ ev = flat_map (fun p => fst (_convert_local_path_to_url host hass p))
                     paths
     | _ => r_media r = None /\ ev = []
     end.
Proof.
  unfold render_call.
  destruct (render_all host (call_target call)) as [targets|]; [|discriminate].
  destruct (_render_template host (call_message call)) as [message|];
    [|discriminate].
  destruct (call_media_url call) as [[|u raw]|].
  - intros [= <- <-]. now repeat split.
  - destruct (snd (convert_media host hass (u :: raw))) as [urls|] eqn:Es;
      simpl; [|discriminate].
    intros [= <- <-]. simpl. split; [reflexivity|]. split; [reflexivity|].
    destruct (convert_media_some host hass (u :: raw) urls Es)
      as [paths [Hp [-> Hev]]].
    exists paths. now repeat split.
  - intros [= <- <-]. now repeat split.
Qed.

Lemma render_all_length host values rendered :
  render_all host values = Some rendered -> length rendered = length values.
Proof.
  revert rendered. induction values as [|v values IH]; simpl; intros rendered.
  - now intros [= <-].
  - destruct (_render_template host v); [|discriminate].
    destruct (render_all host values) as [l|]; simpl; [|discriminate].
    intros [= <-]. simpl. now rewrite (IH l eq_refl).
Qed.

Lemma render_all_In host values rendered value s :
  render_all host values = Some rendered ->
  In value values -> _render_template host value = Some s ->
  In s rendered.
Proof.
  revert rendered. induction values as [|v values IH]; simpl; intros rendered;
    [intros _ []|].
  destruct (_render_template host v) as [sv|] eqn:Ev; [|discriminate].
  destruct (render_all host values) as [l|]; simpl; [|discriminate].
  intros [= <-] [->|Hin] Hs.
  - left. congruence.
  - right. now apply (IH l eq_refl).
Qed.

(** The handler, with its rendering phase factored out. *)
Lemma async_send_message_eq host hass call :
  async_send_message host hass call =
  let from_number := call_from_number call in
  match render_call host hass call with
  | (media_events, None) => (media_events, Raised)
  | (media_events, Some r) =>
      if negb (py_in from_number (_get_all_phone_numbers hass))
      then (media_events ++
              [Logged ERROR "from_number %s not in configured numbers"
                 [ArgStr from_number]],
            Returned)
      else
        match find_entry_client hass from_number with
        | None =>
            (media_events ++
               [Logged ERROR "No client found for from_number %s"
                  [ArgStr from_number]],
             Returned)
        | Some entry_client =>
            let run :=
              send_loop host hass entry_client (r_message r) from_number
                (r_media r) 0 (r_targets r) in
            (media_events ++ fst run, snd run)
        end
  end.
Proof.
  unfold async_send_message, render_call. cbv zeta.
  destruct (render_all host (call_target call)) as [targets|]; [|reflexivity].
  destruct (_render_template host (call_message call)) as [message|];
    [|reflexivity].
  destruct (call_media_url call) as [[|u raw]|];
    try (destruct (convert_media host hass (u :: raw)) as [ev [urls|]]);
    simpl; try reflexivity;
    destruct (negb _); try reflexivity;
    destruct (find_entry_client _ _); try reflexivity;
    now destruct (send_loop _ _ _ _ _ _ _ _).
Qed.

(** The handler when its inputs render. *)
Lemma rendered_run host hass call ev r :
  render_call host hass call = (ev, Some r) ->
  async_send_message host hass call =
  if negb (py_in (call_from_number call) (_get_all_phone_numbers hass))
  then (ev ++ [Logged ERROR "from_number %s not in configured numbers"
                 [ArgStr (call_from_number call)]],
        Returned)
  else
    match find_entry_client hass (call_from_number call) with
    | None =>
        (ev ++ [Logged ERROR "No client found for from_number %s"
                  [ArgStr (call_from_number call)]],
         Returned)
    | Some entry_client =>
        (ev ++ fst (send_loop host hass entry_client (r_message r)
                      (call_from_number call) (r_media r) 0 (r_targets r)),
         snd (send_loop host hass entry_client (r_message r)
                (call_from_number call) (r_media r) 0 (r_targets r)))
    end.
Proof. intros H. rewrite async_send_message_eq. cbv zeta. now rewrite H. Qed.

(** The handler when a template fails to render. *)
Lemma failed_render_run host hass call ev :
  render_call host hass call = (ev, None) ->
  async_send_message host hass call = (ev, Raised).
Proof. intros H. rewrite async_send_message_eq. cbv zeta. now rewrite H. Qed.

(** Read to the letter the claim fails on a call with a template the engine
    cannot render: the handler raises while rendering the targets and logs
    nothing at all. *)
Lemma failed_render_logs_no_error : ~ unknown_sender_logs_one_error.
Proof.
  intros H.
  destruct (H brittle_host two_accounts
              (mkServiceCall [IsTemplate (mkTemplate "{{ states.sensor.gone.state }}")]
                 (IsStr "door open") None "+15559999999")) as [_ Hlen].
  - vm_compute. intuition discriminate.
  - vm_compute in Hlen. discriminate.
Qed.

(** C4, as amended: when the requested sender number is not in the aggregate
    list the handler makes no provider call.  If every template of the call
    renders it returns with exactly one error record, the one naming the
    number, whatever the conversion of the media references logged before
    being warnings; if a template fails to render it raises before the
    sender test and leaves no error record. *)
Theorem unknown_sender_sends_nothing (host : Host) (hass : HomeAssistant)
  (call : ServiceCall) :
  ~ In (call_from_number call) (_get_all_phone_numbers hass) ->
  let run := async_send_message host hass call in
  provider_calls (fst run) = []
  /\ (forall ev r,
        render_call host hass call = (ev, Some r) ->
        logged_at ERROR (fst run)
        = [("from_number %s not in configured numbers"%string,
            [ArgStr (call_from_number call)])]
        /\ snd run = Returned)
  /\ (forall ev,
        render_call host hass call = (ev, None) ->
        logged_at ERROR (fst run) = [] /\ snd run = Raised).
Proof.
  intros Hn. apply py_in_false in Hn. cbv zeta.
  pose proof (render_call_warning host hass call) as Hw.
  destruct (render_call host hass call) as [ev [r|]] eqn:Hr; simpl in Hw;
    destruct (warnings_silent _ Hw) as [Hc He].
  - rewrite (rendered_run _ _ _ _ _ Hr), Hn. simpl.
    rewrite provider_calls_app, logged_at_app, Hc, He.
    split; [reflexivity|]. split; [now split | discriminate].
  - rewrite (failed_render_run _ _ _ _ Hr). simpl.
    split; [exact Hc|]. split; [discriminate|].
    intros ev' [= <-]. now split.
Qed.

Lemma unknown_sender_sends_nothing_witness :
  let host := mkHost render_source None (fun _ _ _ => Created) in
  let hass :=
    mkHass (Some [("e1"%string,
                   mkEntryData (mkClient "AC1" "t1") ["+15550001"%string]
                     "" false)])
      None None in
  let call :=
    mkServiceCall [IsStr "+15559990000"; IsStr "+15559990001"] (IsStr "hello")
      (Some [IsStr "/local/photo.jpg"]) "+15550002" in
  fst (async_send_message host hass call)
  = [Logged WARNING MSG_NO_EXTERNAL_URL [ArgStr "/local/photo.jpg"];
     Logged ERROR "from_number %s not in configured numbers"
       [ArgStr "+15550002"]]
  /\ provider_calls (fst (async_send_message host hass call)) = [].
Proof.
  intros host hass call. split; [reflexivity|].
  apply (unknown_sender_sends_nothing host hass call).
  simpl. intros [H|[]]. discriminate.
Defined.

(** ** The loop over the targets *)

Lemma indexed_cons n target rest :
  indexed n (target :: rest) = (n, target) :: indexed (S n) rest.
Proof. reflexivity. Qed.

Lemma send_loop_trace host hass c message from_number media_urls :
  provider_errors_only host ->
  forall targets sent,
    send_loop host hass c message from_number media_urls sent targets =
    (flat_map (target_events host hass c message from_number media_urls)
       (indexed sent targets),
     Returned).
Proof.
  intros Hp targets. induction targets as [|target rest IH]; intros sent.
  - reflexivity.
  - rewrite indexed_cons. simpl. rewrite IH.
    specialize (Hp sent c
                  (_send_twilio_message_kwargs target message from_number
                     media_urls)).
    destruct (messages_create host sent c _); try contradiction;
      now rewrite <- app_assoc.
Qed.

Lemma send_loop_client host hass c message from_number media_urls :
  forall targets sent c' kwargs,
    In (c', kwargs)
      (provider_calls
         (fst (send_loop host hass c message from_number media_urls sent
                 targets))) ->
    c' = c.
Proof.
  induction targets as [|target rest IH]; intros sent c' kwargs; simpl.
  - intros [].
  - specialize (IH (S sent) c' kwargs).
    destruct (send_loop host hass c message from_number media_urls (S sent) rest)
      as [evs comp].
    destruct (_is_debug_enabled hass);
      destruct (messages_create host sent c _); simpl;
      rewrite ?provider_calls_app; simpl;
      intros [H|H]; try (injection H; congruence); try contradiction;
      now apply IH.
Qed.

Lemma send_loop_first host hass c message from_number media_urls target rest sent :
  exists more,
    provider_calls
      (fst (send_loop host hass c message from_number media_urls sent
              (target :: rest)))
    = (c, _send_twilio_message_kwargs target message from_number media_urls)
      :: more.
Proof.
  simpl.
  destruct (send_loop host hass c message from_number media_urls (S sent) rest)
    as [evs comp].
  destruct (_is_debug_enabled hass);
    destruct (messages_create host sent c _); simpl; eauto.
Qed.

Lemma target_events_calls host hass c message from_number media_urls l :
  provider_calls
    (flat_map (target_events host hass c message from_number media_urls) l)
  = map (fun it =>
           (c, _send_twilio_message_kwargs (snd it) message from_number
                 media_urls)) l.
Proof.
  induction l as [|[i t] l IH]; simpl; [reflexivity|].
  rewrite provider_calls_app, IH.
  destruct (_is_debug_enabled hass);
    destruct (messages_create host i c _); reflexivity.
Qed.

Lemma target_events_errors host hass c message from_number media_urls l :
  logged_at ERROR
    (flat_map (target_events host hass c message from_number media_urls) l)
  = flat_map (target_errors host c message from_number media_urls) l.
Proof.
  induction l as [|[i t] l IH]; simpl; [reflexivity|].
  rewrite logged_at_app, IH.
  destruct (_is_debug_enabled hass);
    destruct (messages_create host i c _); reflexivity.
Qed.

Lemma map_snd_indexed n targets : map snd (indexed n targets) = targets.
Proof.
  revert n. induction targets as [|t ts IH]; intros n; [reflexivity|].
  rewrite indexed_cons. simpl. now rewrite IH.
Qed.

(** ** The owner of a sender number *)

Lemma find_first {A} (f : A -> bool) l x :
  find f l = Some x <->
  exists pre post, l = pre ++ x :: post /\ f x = true
                   /\ forall y, In y pre -> f y = false.
Proof.
  induction l as [|a l IH]; simpl.
  - split; [discriminate | intros [[|? ?] [? [H _]]]; discriminate].
  - destruct (f a) eqn:Fa.
    + split.
      * intros [= <-]. exists [], l. now repeat split.
      * intros [[|b pre] [post [Hl [Hx Hpre]]]]; simpl in Hl;
          injection Hl as <- Hl; [reflexivity|].
        rewrite (Hpre a (or_introl eq_refl)) in Fa. discriminate.
    + rewrite IH. split.
      * intros [pre [post [-> [Hx Hpre]]]]. exists (a :: pre), post.
        repeat split; try easy. intros y [<-|Hy]; auto.
      * intros [[|b pre] [post [Hl [Hx Hpre]]]]; simpl in Hl;
          injection Hl as <- Hl; [congruence|].
        exists pre, post. repeat split; try easy. intros y Hy. apply Hpre. now right.
Qed.

Lemma find_entry_client_owner hass from_number :
  find_entry_client hass from_number
  = option_map client (owner_entry hass from_number).
Proof. reflexivity. Qed.

Lemma owner_entry_first hass from_number pre entry_data post :
  entries hass = pre ++ entry_data :: post ->
  In from_number (phone_numbers entry_data) ->
  (forall e, In e pre -> ~ In from_number (phone_numbers e)) ->
  owner_entry hass from_number = Some entry_data.
Proof.
  intros Hl Hin Hpre. unfold owner_entry. apply find_first.
  exists pre, post. repeat split; [assumption | now apply py_in_In |].
  intros y Hy. apply py_in_false. now apply Hpre.
Qed.

(** A number of the aggregate list always has an owner: the handler's
    second error branch is not taken. *)
Lemma known_sender_has_owner hass from_number :
  In from_number (_get_all_phone_numbers hass) ->
  exists pre entry_data post,
    entries hass = pre ++ entry_data :: post
    /\ In from_number (phone_numbers entry_data)
    /\ (forall e, In e pre -> ~ In from_number (phone_numbers e))
    /\ find_entry_client hass from_number = Some (client entry_data).
Proof.
  intros H. apply all_numbers_In in H as [e [He Hn]].
  rewrite find_entry_client_owner. unfold owner_entry.
  destruct (find (fun entry_data => py_in from_number (phone_numbers entry_data))
              (entries hass)) as [x|] eqn:Hf.
  - pose proof Hf as Hf'. apply find_first in Hf as [pre [post [Hl [Hx Hpre]]]].
    exists pre, x, post. repeat split; try easy.
    + now apply py_in_In.
    + intros y Hy. apply py_in_false. now apply Hpre.
  - apply find_none with (x := e) in Hf; [|assumption].
    apply py_in_false in Hf. contradiction.
Qed.

Lemma known_sender_run host hass call ev r :
  In (call_from_number call) (_get_all_phone_numbers hass) ->
  render_call host hass call = (ev, Some r) ->
  exists entry_client,
    find_entry_client hass (call_from_number call) = Some entry_client
    /\ async_send_message host hass call =
       (ev ++
          fst (send_loop host hass entry_client (r_message r)
                 (call_from_number call) (r_media r) 0 (r_targets r)),
        snd (send_loop host hass entry_client (r_message r)
               (call_from_number call) (r_media r) 0 (r_targets r))).
Proof.
  intros H Hr.
  destruct (known_sender_has_owner _ _ H) as [pre [e [post [_ [_ [_ Hc]]]]]].
  exists (client e). split; [assumption|].
  rewrite (rendered_run _ _ _ _ _ Hr).
  apply py_in_In in H. now rewrite H, Hc.
Qed.

Lemma known_sender_calls host hass call ev r :
  In (call_from_number call) (_get_all_phone_numbers hass) ->
  render_call host hass call = (ev, Some r) ->
  provider_errors_only host ->
  exists entry_client,
    provider_calls (fst (async_send_message host hass call))
    = map (fun target =>
             (entry_client,
              _send_twilio_message_kwargs target (r_message r)
                (call_from_number call) (r_media r)))
        (r_targets r).
Proof.
  intros Hin Hr Hp.
  destruct (known_sender_run host hass call ev r Hin Hr) as [c [_ Hrun]].
  exists c. rewrite Hrun, (send_loop_trace _ _ _ _ _ _ Hp). simpl.
  pose proof (render_call_warning host hass call) as Hw. rewrite Hr in Hw.
  simpl in Hw.
  destruct (warnings_silent _ Hw) as [Hm _].
  rewrite provider_calls_app, Hm, target_events_calls. simpl.
  rewrite <- (map_snd_indexed 0 (r_targets r)) at 2.
  now rewrite map_map.
Qed.

(** An exception of the provider's SDK that is not a [TwilioRestException]
    is not caught: the loop stops at that target. *)
Lemma other_exception_aborts host hass c message from_number media_urls
  target rest sent :
  messages_create host sent c
    (_send_twilio_message_kwargs target message from_number media_urls)
  = RaisedOther ->
  snd (send_loop host hass c message from_number media_urls sent
         (target :: rest)) = Raised
  /\ provider_calls
       (fst (send_loop host hass c message from_number media_urls sent
               (target :: rest)))
     = [(c, _send_twilio_message_kwargs target message from_number media_urls)].
Proof.
  intros H. simpl. rewrite H.
  destruct (send_loop host hass c message from_number media_urls (S sent) rest).
  simpl. rewrite provider_calls_app.
  now destruct (_is_debug_enabled hass).
Qed.

Lemma send_loop_abort host hass c message from_number media_urls target post :
  forall pre sent,
    (forall i c' kwargs, sent <= i < sent + length pre ->
                         messages_create host i c' kwargs <> RaisedOther) ->
    messages_create host (sent + length pre) c
      (_send_twilio_message_kwargs target message from_number media_urls)
    = RaisedOther ->
    let run :=
      send_loop host hass c message from_number media_urls sent
        (pre ++ target :: post) in
    snd run = Raised
    /\ provider_calls (fst run)
       = map (fun t =>
                (c, _send_twilio_message_kwargs t message from_number media_urls))
           (pre ++ [target]).
Proof.
  induction pre as [|p pre IH]; intros sent Hok Hbad; cbv zeta.
  - simpl in Hbad. rewrite Nat.add_0_r in Hbad.
    apply (other_exception_aborts host hass c message from_number media_urls
             target post sent Hbad).
  - simpl app. simpl send_loop.
    assert (Hp : messages_create host sent c
                   (_send_twilio_message_kwargs p message from_number media_urls)
                 <> RaisedOther) by (apply Hok; simpl; lia).
    destruct (IH (S sent)) as [IH1 IH2].
    { intros i c' kw Hi. apply Hok. simpl. lia. }
    { simpl in Hbad. now rewrite Nat.add_succ_r in Hbad. }
    destruct (send_loop host hass c message from_number media_urls (S sent)
                (pre ++ target :: post)) as [evs comp].
    simpl in IH1, IH2.
    destruct (messages_create host sent c _); try contradiction;
      simpl; rewrite provider_calls_app;
      destruct (_is_debug_enabled hass); simpl; now rewrite IH2.
Qed.

(** Read to the letter the claim fails when a send raises something else
    than a [TwilioRestException]: with three targets and such an exception
    at the second send, two provider calls are made, not three. *)
Lemma other_exception_skips_targets : ~ one_send_per_target.
Proof.
  intros H.
  specialize (H offline_host two_accounts
                (mkServiceCall [IsStr "+15559990000"; IsStr "+15559990001";
                                IsStr "+15559990002"]
                   (IsStr "door open") None "+15550001")
                []
                (mkRendered ["+15559990000"; "+15559990001"; "+15559990002"]%string
                   "door open" None)).
  assert (Hin : In "+15550001"%string (_get_all_phone_numbers two_accounts))
    by (vm_compute; tauto).
  specialize (H Hin eq_refl). vm_compute in H. discriminate.
Qed.

(** C5, as amended: for a known sender and inputs that render, the sends
    are issued one after the other in target-list order.  While the
    provider answers each send with success or a provider error, every
    rendered target gets exactly one provider call, a provider error leaves
    one error record in place and the loop goes on to the next target: the
    trace is the media conversion followed by the events of each target in
    order.  An exception of another kind is not caught: the targets up to
    the one that raised have had their call, the ones after it get none,
    and the handler raises. *)
Theorem sends_follow_target_order (host : Host) (hass : HomeAssistant)
  (call : ServiceCall) (ev : list Event) (r : Rendered) :
  In (call_from_number call) (_get_all_phone_numbers hass) ->
  render_call host hass call = (ev, Some r) ->
  exists entry_client,
    find_entry_client hass (call_from_number call) = Some entry_client
    /\ let kwargs target :=
         _send_twilio_message_kwargs target (r_message r)
           (call_from_number call) (r_media r) in
       (provider_errors_only host ->
        async_send_message host hass call
        = (ev ++
             flat_map (target_events host hass entry_client (r_message r)
                         (call_from_number call) (r_media r))
               (indexed 0 (r_targets r)),
           Returned)
        /\ provider_calls (fst (async_send_message host hass call))
           = map (fun target => (entry_client, kwargs target)) (r_targets r)
        /\ logged_at ERROR (fst (async_send_message host hass call))
           = flat_map (target_errors host entry_client (r_message r)
                         (call_from_number call) (r_media r))
               (indexed 0 (r_targets r)))
       /\ (forall pre target post,
              r_targets r = pre ++ target :: post ->
              (forall i c kw, i < length pre ->
                              messages_create host i c kw <> RaisedOther) ->
              messages_create host (length pre) entry_client (kwargs target)
              = RaisedOther ->
              snd (async_send_message host hass call) = Raised
              /\ provider_calls (fst (async_send_message host hass call))
                 = map (fun t => (entry_client, kwargs t)) (pre ++ [target])).
Proof.
  intros Hin Hr.
  destruct (known_sender_run host hass call ev r Hin Hr) as [c [Hc Hrun]].
  exists c. split; [assumption|]. cbv zeta.
  pose proof (render_call_warning host hass call) as Hw. rewrite Hr in Hw.
  simpl in Hw.
  destruct (warnings_silent _ Hw) as [Hm He]. simpl in Hm, He.
  split.
  - intros Hp. rewrite Hrun, (send_loop_trace _ _ _ _ _ _ Hp). simpl.
    split; [reflexivity|]. split.
    + rewrite provider_calls_app, Hm, target_events_calls. simpl.
      rewrite <- (map_snd_indexed 0 (r_targets r)) at 2.
      now rewrite map_map.
    + now rewrite logged_at_app, He, target_events_errors.
  - intros pre target post Ht Hok Hbad. rewrite Hrun, Ht. simpl fst. simpl snd.
    destruct (send_loop_abort host hass c (r_message r) (call_from_number call)
                (r_media r) target post pre 0) as [H1 H2].
    + intros i c' kw Hi. apply Hok. lia.
    + exact Hbad.
    + split; [exact H1|]. now rewrite provider_calls_app, Hm, H2.
Qed.

(** C7: when several entries list the sender number, the handler takes the
    client of the first of them in registry order, and every provider call
    of the invocation goes through that one client; when the inputs render
    a call is made as soon as there is a target. *)
Theorem shared_number_routes_to_first_entry (host : Host)
  (hass : HomeAssistant) (call : ServiceCall)
  (pre : list EntryData) (entry_data : EntryData) (post : list EntryData) :
  entries hass = pre ++ entry_data :: post ->
  In (call_from_number call) (phone_numbers entry_data) ->
  (forall e, In e pre -> ~ In (call_from_number call) (phone_numbers e)) ->
  let calls := provider_calls (fst (async_send_message host hass call)) in
  find_entry_client hass (call_from_number call) = Some (client entry_data)
  /\ (forall c kwargs, In (c, kwargs) calls -> c = client entry_data)
  /\ (forall ev r,
        render_call host hass call = (ev, Some r) ->
        call_target call <> [] -> calls <> [])
  /\ (provider_errors_only host ->
      forall ev r,
        render_call host hass call = (ev, Some r) ->
        calls = map (fun target =>
                       (client entry_data,
                        _send_twilio_message_kwargs target (r_message r)
                          (call_from_number call) (r_media r)))
                  (r_targets r)).
Proof.
  intros Hl Hin Hpre. cbv zeta.
  assert (Ho : find_entry_client hass (call_from_number call)
               = Some (client entry_data)).
  { rewrite find_entry_client_owner.
    now rewrite (owner_entry_first _ _ _ _ _ Hl Hin Hpre). }
  assert (Hall : In (call_from_number call) (_get_all_phone_numbers hass)).
  { apply all_numbers_In. exists entry_data. split; [|assumption].
    rewrite Hl. apply in_or_app. right. now left. }
  pose proof (render_call_warning host hass call) as Hw.
  assert (Hrun : forall ev r,
             render_call host hass call = (ev, Some r) ->
             provider_calls (fst (async_send_message host hass call))
             = provider_calls
                 (fst (send_loop host hass (client entry_data) (r_message r)
                         (call_from_number call) (r_media r) 0 (r_targets r)))).
  { intros ev r Hr.
    destruct (known_sender_run host hass call ev r Hall Hr) as [c [Hc Hrun]].
    rewrite Ho in Hc. injection Hc as <-. rewrite Hr in Hw.
    destruct (warnings_silent _ Hw) as [Hm _]. simpl in Hm.
    rewrite Hrun. simpl fst. now rewrite provider_calls_app, Hm. }
  split; [assumption|]. split; [|split].
  - intros c kwargs H.
    destruct (render_call host hass call) as [ev [r|]] eqn:Hr.
    + rewrite (Hrun ev r eq_refl) in H. eapply send_loop_client. exact H.
    + rewrite (failed_render_run _ _ _ _ Hr) in H. simpl in Hw, H.
      destruct (warnings_silent _ Hw) as [Hm _]. rewrite Hm in H. contradiction.
  - intros ev r Hr Hne. rewrite (Hrun ev r Hr).
    destruct (render_call_some _ _ _ _ _ Hr) as [Ht _].
    apply render_all_length in Ht.
    destruct (r_targets r) as [|t ts];
      [destruct (call_target call); [congruence | discriminate]|].
    destruct (send_loop_first host hass (client entry_data) (r_message r)
                (call_from_number call) (r_media r) t ts 0) as [more Hmore].
    rewrite Hmore. discriminate.
  - intros Hp ev r Hr. rewrite (Hrun ev r Hr).
    rewrite (send_loop_trace _ _ _ _ _ _ Hp). simpl.
    rewrite target_events_calls.
    rewrite <- (map_snd_indexed 0 (r_targets r)) at 2.
    now rewrite map_map.
Qed.

Lemma picky_host_errors_only : provider_errors_only picky_host.
Proof. intros [|[|n]] c kw; discriminate. Qed.

Lemma sends_follow_target_order_witness :
  let call :=
    mkServiceCall
      [IsStr "+15559990000"; IsTemplate (mkTemplate "+15559990001");
       IsStr "+15559990002"]
      (IsStr "door open") None "+15550002" in
  let kwargs target := mkCreateKwargs target "+15550002" "door open" None in
  provider_calls (fst (async_send_message picky_host two_accounts call))
  = [(mkClient "ACbbbb" "token-b", kwargs "+15559990000"%string);
     (mkClient "ACbbbb" "token-b", kwargs "+15559990001"%string);
     (mkClient "ACbbbb" "token-b", kwargs "+15559990002"%string)]
  /\ logged_at ERROR (fst (async_send_message picky_host two_accounts call))
     = [("Failed to send SMS to %s: %s"%string,
         [ArgStr "+15559990001";
          ArgErr (mkRestException 400 (Some 21211%Z) "Invalid 'To' Phone Number")])].
Proof.
  intros call kwargs.
  destruct (sends_follow_target_order picky_host two_accounts call []
              (mkRendered ["+15559990000"; "+15559990001"; "+15559990002"]%string
                 "door open" None))
    as [c [Hc [Hok _]]].
  - vm_compute. tauto.
  - reflexivity.
  - destruct (Hok picky_host_errors_only) as [_ [Hcalls Herr]].
    vm_compute in Hc. injection Hc as <-. split; [exact Hcalls | exact Herr].
Defined.

Lemma shared_number_routes_to_first_entry_witness :
  let call :=
    mkServiceCall [IsStr "+15559990000"] (IsStr "door open") None "+15550003" in
  provider_calls (fst (async_send_message picky_host two_accounts call))
  = [(mkClient "ACaaaa" "token-a",
      mkCreateKwargs "+15559990000" "+15550003" "door open" None)].
Proof.
  intros call.
  refine (proj2 (proj2 (proj2
            (shared_number_routes_to_first_entry picky_host two_accounts call
               [] (entry_data_of account_a) [entry_data_of account_b]
               eq_refl _ _))) picky_host_errors_only []
            (mkRendered ["+15559990000"%string] "door open" None) eq_refl).
  - vm_compute. tauto.
  - intros e [].
Defined.

(** ** The base URL of a rewritten reference *)

Lemma get_external_url_none hass :
  (forall e, In e (entries hass) -> external_url e = ""%string) ->
  _get_external_url hass = None.
Proof.
  intros H. destruct (_get_external_url hass) as [base|] eqn:Hb; [|reflexivity].
  apply get_external_url_first in Hb
      as [pre [e [post [Hl [Hx [Hne _]]]]]].
  exfalso. apply Hne. rewrite <- Hx. apply H. rewrite Hl.
  apply in_or_app. right. now left.
Qed.

Lemma is_local_not_http_snd host hass path :
  is_local_reference path ->
  _get_external_url hass = None -> get_url host = None ->
  _convert_local_path_to_url host hass path
  = ([Logged WARNING MSG_NO_EXTERNAL_URL [ArgStr path]], path).
Proof.
  intros Hl H1 H2. rewrite (convert_local _ _ _ Hl).
  now apply rewrite_without_base.
Qed.

(** The claim as first written fails: with two accounts that each configure
    an external URL, a reference sent from the second account's number is
    rewritten with the first account's URL. *)
Lemma owner_url_not_preferred : ~ prefers_owner_url.
Proof.
  intros H.
  specialize (H picky_host two_accounts "+15550002"%string
                "/local/photo.jpg"%string "https://b.example"%string).
  assert (Hl : is_local_reference "/local/photo.jpg").
  { repeat split; try (intros [r Hr]; discriminate).
    exists "/local/"%string. split; [now left | now exists "photo.jpg"%string]. }
  specialize (H Hl eq_refl). vm_compute in H. discriminate.
Qed.

(** C3, as amended: a local media reference is rewritten with the first
    non-empty external URL found in the registry, in registry order and
    whoever owns the sender number; when no entry has one, with the address
    the host resolves; and when the host resolves none, the reference is
    returned as it came with one warning, and the invocation still makes
    its provider call for every target, carrying the unchanged reference. *)
Theorem media_base_url_first_configured (host : Host) (hass : HomeAssistant)
  (path : string) :
  is_local_reference path ->
  (forall pre entry_data post,
      entries hass = pre ++ entry_data :: post ->
      external_url entry_data <> ""%string ->
      (forall e, In e pre -> external_url e = ""%string) ->
      snd (_convert_local_path_to_url host hass path)
      = (rstrip_slash (external_url entry_data) ++ path)%string)
  /\ ((forall e, In e (entries hass) -> external_url e = ""%string) ->
      (forall base, get_url host = Some base ->
                    snd (_convert_local_path_to_url host hass path)
                    = (rstrip_slash base ++ path)%string)
      /\ (get_url host = None ->
          _convert_local_path_to_url host hass path
          = ([Logged WARNING MSG_NO_EXTERNAL_URL [ArgStr path]], path)
          /\ forall call refs ref ev r,
              call_media_url call = Some refs ->
              In ref refs ->
              _render_template host ref = Some path ->
              render_call host hass call = (ev, Some r) ->
              In (call_from_number call) (_get_all_phone_numbers hass) ->
              provider_errors_only host ->
              let calls :=
                provider_calls (fst (async_send_message host hass call)) in
              length calls = length (call_target call)
              /\ forall c kwargs, In (c, kwargs) calls ->
                                  exists urls, media_url kwargs = Some urls
                                               /\ In path urls)).
Proof.
  intros Hl. split.
  - intros pre e post He Hne Hpre.
    assert (Hb : _get_external_url hass = Some (external_url e)).
    { apply get_external_url_first. exists pre, e, post. now repeat split. }
    rewrite (convert_local _ _ _ Hl).
    now rewrite (rewrite_with_base host hass path _ (or_introl Hb)).
  - intros Hall. apply get_external_url_none in Hall. split.
    + intros base Hb. rewrite (convert_local _ _ _ Hl).
      now rewrite (rewrite_with_base host hass path base
                     (or_intror (conj Hall Hb))).
    + intros Hnone.
      pose proof (is_local_not_http_snd host hass path Hl Hall Hnone) as Hconv.
      split; [assumption|].
      intros call refs ref ev r Hrefs Hin Hren Hr Hfrom Hp. cbv zeta.
      destruct (known_sender_calls host hass call ev r Hfrom Hr Hp)
        as [c0 Hcalls].
      destruct (render_call_some _ _ _ _ _ Hr) as [Ht [_ Hmedia]].
      rewrite Hcalls, length_map. split; [now apply render_all_length in Ht|].
      intros c kwargs Hk. apply in_map_iff in Hk as [t [Hk _]].
      injection Hk as _ <-.
      rewrite Hrefs in Hmedia. destruct refs as [|u refs]; [contradiction|].
      destruct Hmedia as [paths [Hpaths [Hm _]]].
      assert (Hp' : In path paths)
        by (eapply render_all_In; eassumption).
      rewrite Hm. destruct paths as [|p0 paths]; [contradiction|].
      eexists. split; [reflexivity|].
      apply in_map_iff. exists path. split; [now rewrite Hconv | assumption].
Qed.

Lemma media_base_url_first_configured_witness :
  snd (_convert_local_path_to_url picky_host two_accounts
         "/api/camera_proxy/camera.door")
  = "https://a.example/api/camera_proxy/camera.door"%string
  /\ _convert_local_path_to_url picky_host initial_hass
       "/api/camera_proxy/camera.door"
     = ([Logged WARNING MSG_NO_EXTERNAL_URL
           [ArgStr "/api/camera_proxy/camera.door"]],
        "/api/camera_proxy/camera.door"%string).
Proof.
  assert (Hl : is_local_reference "/api/camera_proxy/camera.door").
  { repeat split; try (intros [r Hr]; discriminate).
    exists "/api/"%string.
    split; [right; right; now left
           | now exists "camera_proxy/camera.door"%string]. }
  split.
  - refine (proj1 (media_base_url_first_configured picky_host two_accounts
                     "/api/camera_proxy/camera.door"%string Hl)
              [] (entry_data_of account_a) [entry_data_of account_b]
              eq_refl _ _).
    + discriminate.
    + intros e [].
  - refine (proj1 (proj2 (proj2 (media_base_url_first_configured picky_host
                                   initial_hass
                                   "/api/camera_proxy/camera.door"%string Hl)
                            _) eq_refl)).
    intros e [].
Defined.

(** ** Activation and deactivation *)

Lemma all_numbers_domain_data hass1 hass2 :
  domain_data hass1 = domain_data hass2 ->
  _get_all_phone_numbers hass1 = _get_all_phone_numbers hass2.
Proof.
  intros H. unfold _get_all_phone_numbers, entries. now rewrite H.
Qed.

Lemma setup_state hass entry :
  let hass' := fst (async_setup_entry hass entry) in
  domain_data hass'
  = Some (PyDict.set (entry_id entry) (entry_data_of entry)
            (get_or (domain_data hass) []))
  /\ service hass'
     = Some (match service hass with
             | Some schema => schema
             | None => _get_service_schema (phone_numbers (entry_data_of entry))
             end)
  /\ description hass' = Some (service_desc_of (_get_all_phone_numbers hass')).
Proof.
  unfold async_setup_entry. destruct (service hass); simpl; repeat split.
Qed.

Lemma setup_calls hass entry :
  snd (async_setup_entry hass entry)
  = (match service hass with
     | Some _ => []
     | None => [AsyncRegister
                  (_get_service_schema (phone_numbers (entry_data_of entry)))]
     end)
    ++ [AsyncSetServiceSchema
          (service_desc_of
             (_get_all_phone_numbers (fst (async_setup_entry hass entry))))].
Proof.
  unfold async_setup_entry. now destruct (service hass).
Qed.

(** An activation registers the action when, and only when, it is not
    registered yet. *)
Lemma setup_registers_once hass entry :
  count_register (snd (async_setup_entry hass entry))
  = if has_service hass then 0 else 1.
Proof.
  rewrite setup_calls. unfold has_service. now destruct (service hass).
Qed.

Lemma set_not_empty {V} k (v : V) d : PyDict.set k v d <> [].
Proof.
  destruct d as [|[k' v'] d]; simpl; [discriminate|].
  destruct (String.eqb k k'); discriminate.
Qed.

Lemma set_fresh {V} k (v : V) d :
  ~ In k (PyDict.keys d) -> PyDict.set k v d = d ++ [(k, v)].
Proof.
  induction d as [|[k' v'] d IH]; simpl; intros H; [reflexivity|].
  destruct (String.eqb_spec k k') as [->|Hne]; [tauto|].
  rewrite IH; [reflexivity | tauto].
Qed.

(** Activations of new entries line the registry up in activation order. *)
Lemma setup_fresh_appends hass entry :
  ~ In (entry_id entry) (PyDict.keys (get_or (domain_data hass) [])) ->
  entries (fst (async_setup_entry hass entry))
  = entries hass ++ [entry_data_of entry].
Proof.
  intros H. destruct (setup_state hass entry) as [Hd _].
  unfold entries. rewrite Hd, (set_fresh _ _ _ H).
  unfold PyDict.values. rewrite map_app.
  now destruct (domain_data hass).
Qed.

Lemma pop_spec {V} k (d d' : PyDict.t V) :
  PyDict.pop k d = Some d' ->
  exists pre v post,
    d = pre ++ (k, v) :: post /\ ~ In k (PyDict.keys pre) /\ d' = pre ++ post.
Proof.
  revert d'. induction d as [|[k' v'] d IH]; simpl; intros d'; [discriminate|].
  destruct (String.eqb_spec k k') as [->|Hne].
  - intros [= <-]. exists [], v', d. now repeat split.
  - destruct (PyDict.pop k d) as [d0|]; simpl; [|discriminate].
    intros [= <-]. destruct (IH d0 eq_refl) as [pre [v [post [-> [Hn ->]]]]].
    exists ((k', v') :: pre), v, post. repeat split.
    simpl. intros [H|H]; [congruence | contradiction].
Qed.

Lemma values_not_empty {V} (d : PyDict.t V) : PyDict.values d = [] <-> d = [].
Proof. destruct d; simpl; split; congruence. Qed.

(** The action is registered exactly while the registry holds an entry. *)
Lemma service_iff_entries hass :
  reachable hass -> (has_service hass = true <-> entries hass <> []).
Proof.
  induction 1 as [|hass entry Hr IH|hass entry hass' calls Hr IH Hu].
  - simpl. split; [discriminate | intros H; now elim H].
  - destruct (setup_state hass entry) as [Hd [Hs _]].
    unfold has_service, entries. rewrite Hd, Hs. split; [|reflexivity].
    intros _ E. apply values_not_empty in E. now apply set_not_empty in E.
  - unfold async_unload_entry in Hu.
    destruct (domain_data hass) as [d|] eqn:Hd; [|discriminate].
    destruct (PyDict.pop (entry_id entry) d) as [[|x d']|] eqn:Hp;
      [| |discriminate]; injection Hu as <- _.
    + simpl. split; [discriminate | intros H; now elim H].
    + unfold has_service, entries. simpl. split; [discriminate|]. intros _.
      apply pop_spec in Hp as [pre [v [post [-> _]]]].
      unfold has_service, entries in IH. rewrite Hd in IH.
      apply IH. unfold PyDict.values. rewrite map_app. simpl.
      now destruct (map snd pre).
Qed.

(** C6, as amended: a deactivation takes the entry out of the registry; when
    none is left the action is removed, and otherwise the action stays
    registered and the description published for it is recomputed from the
    entries that remain, so that it lists a number exactly when a remaining
    entry does.  In either case the action is registered afterwards exactly
    when the registry holds an entry. *)
Theorem unload_keeps_service_while_entries_remain (hass : HomeAssistant)
  (entry : ConfigEntry) (hass' : HomeAssistant) (calls : list ServiceApiCall) :
  reachable hass ->
  async_unload_entry hass entry = Some (hass', calls) ->
  (exists pre entry_data post,
      domain_data hass = Some (pre ++ (entry_id entry, entry_data) :: post)
      /\ ~ In (entry_id entry) (PyDict.keys pre)
      /\ domain_data hass' = Some (pre ++ post))
  /\ (entries hass' = [] -> service hass' = None /\ calls = [AsyncRemove])
  /\ (entries hass' <> [] ->
      has_service hass' = true
      /\ service hass' = service hass
      /\ description hass'
         = Some (service_desc_of (_get_all_phone_numbers hass'))
      /\ calls = [AsyncSetServiceSchema
                    (service_desc_of (_get_all_phone_numbers hass'))]
      /\ forall n,
           In n (options (desc_from_number
                            (service_desc_of (_get_all_phone_numbers hass'))))
           <-> exists e, In e (entries hass') /\ In n (phone_numbers e))
  /\ (has_service hass' = true <-> entries hass' <> []).
Proof.
  intros Hr Hu.
  pose proof (service_iff_entries hass' (reachable_unload _ _ _ _ Hr Hu)) as Hinv.
  unfold async_unload_entry in Hu.
  destruct (domain_data hass) as [d|] eqn:Hd; [|discriminate].
  destruct (PyDict.pop (entry_id entry) d) as [[|x d']|] eqn:Hp;
    [| |discriminate]; injection Hu as <- <-;
    apply pop_spec in Hp as [pre [v [post [-> [Hk Hd']]]]].
  - split; [exists pre, v, post; simpl; now rewrite Hd'|].
    split; [now split|]. split; [|exact Hinv].
    intros H. exfalso. now apply H.
  - split; [exists pre, v, post; simpl; now rewrite Hd'|].
    split; [intros H; discriminate|]. split; [|exact Hinv].
    intros Hne. split; [now apply Hinv|].
    repeat split; try (intros Hn; now apply all_numbers_In in Hn);
      try (intros Hn; now apply all_numbers_In).
Qed.

Lemma two_accounts_reachable : reachable two_accounts.
Proof. repeat apply reachable_setup. apply reachable_initial. Qed.

(** Read to the letter the claim fails when two entries share a number:
    unloading the first of the two accounts leaves the shared number in the
    published description, because the second account lists it too. *)
Lemma shared_number_survives_unload : ~ unload_omits_removed_numbers.
Proof.
  intros H.
  destruct (async_unload_entry two_accounts account_a) as [[hass' calls]|] eqn:Hu;
    [|discriminate].
  specialize (H two_accounts account_a hass' calls
                (get_or (domain_data two_accounts) [])
                (entry_data_of account_a)
                (service_desc_of ["+15550002"; "+15550003"]%string)
                two_accounts_reachable eq_refl eq_refl Hu).
  vm_compute in Hu. injection Hu as <- _.
  apply (H ltac:(discriminate) eq_refl "+15550003"%string); simpl; tauto.
Qed.

Lemma unload_keeps_service_while_entries_remain_witness :
  exists hass' calls,
    async_unload_entry two_accounts account_a = Some (hass', calls)
    /\ has_service hass' = true
    /\ description hass'
       = Some (service_desc_of ["+15550002"%string; "+15550003"%string]).
Proof.
  destruct (async_unload_entry two_accounts account_a) as [[hass' calls]|] eqn:Hu;
    [|discriminate].
  exists hass', calls. split; [reflexivity|].
  destruct (unload_keeps_service_while_entries_remain two_accounts account_a
              hass' calls two_accounts_reachable Hu) as [_ [_ [H _]]].
  vm_compute in Hu. injection Hu as <- _.
  destruct H as [Hs [_ [Hdesc _]]]; [discriminate|].
  split; [exact Hs | exact Hdesc].
Defined.

(** ** The schema of the registered action *)

(** Every activation publishes a description whose sender selector lists
    the aggregate list of the registry it leaves. *)
Lemma setup_publishes_aggregate hass entry :
  let hass' := fst (async_setup_entry hass entry) in
  option_map (fun d => options (desc_from_number d)) (description hass')
  = Some (_get_all_phone_numbers hass').
Proof.
  cbv zeta. destruct (setup_state hass entry) as [_ [_ ->]]. reflexivity.
Qed.

(** At the activation that registers the action the registry holds that one
    entry, and the registered validator admits exactly the aggregate list,
    or any string when that list is empty. *)
Lemma first_activation_schema hass entry :
  reachable hass ->
  has_service hass = false ->
  let hass' := fst (async_setup_entry hass entry) in
  exists schema,
    service hass' = Some schema
    /\ (_get_all_phone_numbers hass' = [] ->
        required_from_number schema = StringValidator)
    /\ (_get_all_phone_numbers hass' <> [] ->
        forall n, accepts (required_from_number schema) n = true
                  <-> In n (_get_all_phone_numbers hass')).
Proof.
  intros Hr Hs. cbv zeta.
  assert (He : entries hass = []).
  { destruct (entries hass) eqn:E; [reflexivity|].
    assert (has_service hass = true) by (apply service_iff_entries; congruence).
    congruence. }
  destruct (setup_state hass entry) as [Hd [Hsch _]].
  assert (Hall : forall n,
             In n (_get_all_phone_numbers (fst (async_setup_entry hass entry)))
             <-> In n (phone_numbers (entry_data_of entry))).
  { intros n. rewrite all_numbers_keep_first, keep_first_In.
    unfold entries in *. rewrite Hd.
    destruct (domain_data hass) as [d|]; simpl in *.
    - apply values_not_empty in He. subst d. simpl. now rewrite app_nil_r.
    - now rewrite app_nil_r. }
  unfold has_service in Hs. destruct (service hass); [discriminate|].
  eexists. split; [exact Hsch|].
  destruct (phone_numbers (entry_data_of entry)) as [|p ps] eqn:Hp;
    unfold _get_service_schema; simpl required_from_number.
  - split; [reflexivity|]. intros Hne. exfalso.
    destruct (_get_all_phone_numbers (fst (async_setup_entry hass entry)))
      as [|x l]; [now apply Hne|].
    now apply (proj1 (Hall x) (or_introl eq_refl)).
  - split.
    + intros E. exfalso.
      assert (Hin : In p (_get_all_phone_numbers
                            (fst (async_setup_entry hass entry))))
        by (apply Hall; now left).
      now rewrite E in Hin.
    + intros _ n. rewrite Hall. exact (py_in_In n (p :: ps)).
Qed.

(** C2: run on two accounts.  The second activation makes no registration
    call and publishes a description listing the three numbers of the
    aggregate list, but the validator of the registered action is still the
    one built from the first account's own numbers: it rejects the second
    account's number, which the aggregate list holds. *)
Theorem second_account_number_rejected :
  let hass1 := fst (async_setup_entry initial_hass account_a) in
  let hass2 := fst (async_setup_entry hass1 account_b) in
  let calls2 := snd (async_setup_entry hass1 account_b) in
  count_register (snd (async_setup_entry initial_hass account_a)) = 1
  /\ count_register calls2 = 0
  /\ _get_all_phone_numbers hass2
     = ["+15550001"; "+15550003"; "+15550002"]%string
  /\ calls2
     = [AsyncSetServiceSchema
          (service_desc_of ["+15550001"; "+15550003"; "+15550002"]%string)]
  /\ option_map required_from_number (service hass2)
     = Some (InValidator ["+15550001"; "+15550003"]%string)
  /\ option_map (fun schema => accepts (required_from_number schema) "+15550002")
       (service hass2)
     = Some false.
Proof. cbv zeta. repeat split. Qed.

(** With no number configured the registered validator is the free-form
    string validator, while the published selector is an empty enumeration
    that takes no custom value. *)
Lemma empty_list_schema_and_description :
  let entry := mkConfigEntry "entry-c" "ACcccc" "token-c" None None None
                 None None None in
  let hass := fst (async_setup_entry initial_hass entry) in
  option_map required_from_number (service hass) = Some StringValidator
  /\ option_map desc_from_number (description hass)
     = Some (mkSelectSelector [] false).
Proof. cbv zeta. split; reflexivity. Qed.

(** ** The credential step of the wizard *)

(** The credential step, for each outcome of the call into the SDK.  An
    empty list of numbers shows the credential form again with
    [no_phone_numbers]; a [TwilioRestException] shows it with [invalid_auth]
    when its code is 20003 and with [cannot_connect] otherwise; any other
    exception shows it with [unknown]; only a non-empty list moves on to the
    selection form. *)
Lemma credential_step_outcomes (provider : Provider) (self : TwilioConfigFlow)
  (account_sid auth_token : string) :
  let result :=
    snd (async_step_user provider self (Some (account_sid, auth_token))) in
  let again key := ShowForm "user" CredentialSchema [("base"%string, key)] in
  match provider account_sid auth_token with
  | SdkOk [] => result = again "no_phone_numbers"%string
  | SdkOk (_ :: _) =>
      exists number_options,
        result = ShowForm "select_numbers" (SelectNumbersSchema number_options) []
  | SdkRestException err =>
      (code err = Some 20003%Z -> result = again "invalid_auth"%string)
      /\ (code err <> Some 20003%Z -> result = again "cannot_connect"%string)
  | SdkOtherException => result = again "unknown"%string
  end.
Proof.
  cbv zeta. unfold async_step_user, validate_credentials.
  destruct (provider account_sid auth_token) as [[|n ns]|err|]; simpl.
  - reflexivity.
  - eexists. reflexivity.
  - split.
    + intros ->. reflexivity.
    + intros Hc. destruct (code err) as [c|]; [|reflexivity].
      destruct (Z.eqb_spec c 20003) as [->|Hne]; [congruence | reflexivity].
  - reflexivity.
Qed.

(** Entering the step without input shows the credential form with no
    error, and an error outcome keeps the credentials just entered. *)
(** C9: run on credentials the provider refuses.  The one call the step
    makes into the SDK, the listing of the account's numbers, reports the
    provider's HTTP 401 as the SDK's base exception, which is not a
    [TwilioRestException]: the step then shows the credential form with
    [unknown], not with [invalid_auth].  The step shows [invalid_auth] only
    when the call raises a [TwilioRestException] whose code is 20003. *)
Theorem auth_failure_shows_unknown (self : TwilioConfigFlow)
  (account_sid auth_token : string) :
  let refused : Provider := fun _ _ => SdkOtherException in
  let again key := ShowForm "user" CredentialSchema [("base"%string, key)] in
  snd (async_step_user refused self (Some (account_sid, auth_token)))
  = again "unknown"%string
  /\ forall provider,
       snd (async_step_user provider self (Some (account_sid, auth_token)))
       = again "invalid_auth"%string ->
       exists err,
         provider account_sid auth_token = SdkRestException err
         /\ code err = Some 20003%Z.
Proof.
  cbv zeta. split; [reflexivity|].
  intros provider. unfold async_step_user, validate_credentials.
  destruct (provider account_sid auth_token) as [[|n ns]|err|]; simpl;
    try discriminate.
  destruct (code err) as [c|] eqn:Hc; [|discriminate].
  destruct (Z.eqb_spec c 20003) as [->|Hne]; [|discriminate].
  intros _. exists err. now split.
Qed.

Lemma credential_step_state provider self account_sid auth_token :
  snd (async_step_user provider self None) = ShowForm "user" CredentialSchema []
  /\ _account_sid
       (fst (fst (async_step_user provider self (Some (account_sid, auth_token)))))
     = Some account_sid
  /\ _auth_token
       (fst (fst (async_step_user provider self (Some (account_sid, auth_token)))))
     = Some auth_token.
Proof.
  unfold async_step_user.
  destruct (validate_credentials provider account_sid auth_token) as [[|n ns]|err|];
    repeat split.
Qed.

Lemma credential_step_outcomes_witness :
  let provider : Provider :=
    fun _ _ => SdkRestException (mkRestException 401 (Some 20003%Z) "Authenticate") in
  snd (async_step_user provider new_config_flow (Some ("ACaaaa", "wrong")%string))
  = ShowForm "user" CredentialSchema [("base", "invalid_auth")%string].
Proof.
  intros provider.
  exact (proj1 (credential_step_outcomes provider new_config_flow
                  "ACaaaa"%string "wrong"%string) eq_refl).
Defined.

Lemma aggregate_is_dedup_union_witness :
  exists r1 r2,
    _get_all_phone_numbers two_accounts = r1 ++ "+15550002"%string :: r2
    /\ forall y, In y r1 <-> In y ["+15550001"; "+15550003"]%string.
Proof.
  refine (proj2 (proj2 (proj2 (aggregate_is_dedup_union two_accounts)))
            ["+15550001"; "+15550003"]%string "+15550002"%string
            ["+15550003"%string] eq_refl _).
  simpl. intros [H|[H|[]]]; discriminate.
Defined.

(** ** The code on concrete inputs *)

Example rstrip_slash_examples :
  rstrip_slash "https://example.com///" = "https://example.com"%string
  /\ rstrip_slash "https://example.com/ha" = "https://example.com/ha"%string
  /\ rstrip_slash "//" = ""%string.
Proof. repeat split. Qed.

Example two_accounts_registry :
  domain_data two_accounts
  = Some [("entry-a"%string,
           mkEntryData (mkClient "ACaaaa" "token-a")
             ["+15550001"; "+15550003"]%string "https://a.example/" false);
          ("entry-b"%string,
           mkEntryData (mkClient "ACbbbb" "token-b")
             ["+15550002"; "+15550003"]%string "https://b.example" false)]
  /\ _get_all_phone_numbers two_accounts
     = ["+15550001"; "+15550003"; "+15550002"]%string.
Proof. split; reflexivity. Qed.

(** Activating an entry that is already in the registry replaces its record
    where it stands. *)
Example set_keeps_position :
  PyDict.keys
    (get_or (domain_data (fst (async_setup_entry two_accounts account_a))) [])
  = ["entry-a"; "entry-b"]%string.
Proof. reflexivity. Qed.

(** A reload is a deactivation followed by an activation: the entry moves
    to the end of the registry. *)
Example reload_moves_entry_last :
  option_map
    (fun r => PyDict.keys
                (get_or (domain_data (fst (async_setup_entry (fst r) account_a)))
                   []))
    (async_unload_entry two_accounts account_a)
  = Some ["entry-b"; "entry-a"]%string.
Proof. reflexivity. Qed.

Example invocation_with_media :
  async_send_message picky_host two_accounts
    (mkServiceCall [IsTemplate (mkTemplate "+15559990000")] (IsStr "door open")
       (Some [IsStr "/local/photo.jpg"; IsStr "https://cdn.example/a.png";
              IsStr "snapshot.jpg"])
       "+15550002")
  = ([MessagesCreate (mkClient "ACbbbb" "token-b")
        (mkCreateKwargs "+15559990000" "+15550002" "door open"
           (Some ["https://a.example/local/photo.jpg";
                  "https://cdn.example/a.png"; "snapshot.jpg"]%string));
      Logged DEBUG "SMS sent to %s" [ArgStr "+15559990000"]],
     Returned).
Proof. reflexivity. Qed.

(** * Further properties of the dispatcher *)

Lemma convert_cases host hass path :
  _convert_local_path_to_url host hass path =
  if startswith_any path ["http://"; "https://"] then ([], path)
  else if startswith_any path LOCAL_PATH_PREFIXES
       then rewrite_local_path host hass path
       else ([], path).
Proof.
  unfold _convert_local_path_to_url.
  destruct (startswith_any path ["http://"; "https://"]); [reflexivity|].
  unfold startswith_any, LOCAL_PATH_PREFIXES. simpl.
  repeat match goal with
         | |- context [if startswith ?s ?p then _ else _] =>
             destruct (startswith s p)
         end; reflexivity.
Qed.

Lemma startswith_any_spec s ps :
  startswith_any s ps = true <-> exists p, In p ps /\ starts_with s p.
Proof.
  unfold startswith_any. rewrite existsb_exists.
  split; intros [p [Hin Hp]]; exists p; split; try assumption;
    now apply startswith_spec.
Qed.

(** X1: A reference that is already an absolute network address is returned as
    it is, with nothing logged, whatever base URL is configured. *)
Theorem absolute_reference_unchanged (host : Host) (hass : HomeAssistant)
  (path : string) :
  starts_with path "http://" \/ starts_with path "https://" ->
  _convert_local_path_to_url host hass path = ([], path).
Proof.
  intros H. rewrite convert_cases.
  assert (E : startswith_any path ["http://"; "https://"] = true).
  { apply startswith_any_spec.
    destruct H as [H|H]; eexists; (split; [|exact H]); simpl; tauto. }
  now rewrite E.
Qed.

Lemma absolute_reference_unchanged_witness :
  _convert_local_path_to_url picky_host two_accounts
    "https://cdn.example/local/photo.jpg"
  = ([], "https://cdn.example/local/photo.jpg"%string).
Proof.
  apply absolute_reference_unchanged. right.
  now exists "cdn.example/local/photo.jpg"%string.
Defined.

Lemma rewrite_local_resolved host hass path :
  snd (rewrite_local_path host hass path)
  = match resolved_base_url host hass with
    | Some base => (rstrip_slash base ++ path)%string
    | None => path
    end.
Proof.
  unfold resolved_base_url.
  destruct (_get_external_url hass) as [b|] eqn:Hb.
  - now rewrite (rewrite_with_base host hass path b (or_introl Hb)).
  - destruct (get_url host) as [b|] eqn:Hg.
    + now rewrite (rewrite_with_base host hass path b (or_intror (conj Hb Hg))).
    + now rewrite (rewrite_without_base host hass path Hb Hg).
Qed.

Lemma rstrip_slash_head base c rest :
  rstrip_slash base = String c rest -> exists tail, base = String c tail.
Proof.
  intros H. destruct (rstrip_slash_decompose base) as [k Hk].
  rewrite H in Hk. simpl in Hk. eauto.
Qed.

Lemma startswith_other_head c rest p :
  c <> "/"%char -> In p LOCAL_PATH_PREFIXES -> startswith (String c rest) p = false.
Proof.
  intros Hc Hin. apply startswith_false. intros [r Hr].
  destruct Hin as [<-|[<-|[<-|[]]]]; simpl in Hr; congruence.
Qed.

(** X2: converting twice gives what converting once gives, as long as the base
    URL in use does not itself begin with a slash: a rewritten reference is
    no longer under a local prefix. *)
Theorem conversion_idempotent (host : Host) (hass : HomeAssistant)
  (path : string) :
  (forall base, resolved_base_url host hass = Some base ->
                ~ starts_with base "/") ->
  snd (_convert_local_path_to_url host hass
         (snd (_convert_local_path_to_url host hass path)))
  = snd (_convert_local_path_to_url host hass path).
Proof.
  intros Hbase. rewrite (convert_cases host hass path).
  destruct (startswith_any path ["http://"; "https://"]) eqn:Hh;
    [simpl; rewrite convert_cases, Hh; reflexivity|].
  destruct (startswith_any path LOCAL_PATH_PREFIXES) eqn:Hl;
    [|simpl; rewrite convert_cases, Hh, Hl; reflexivity].
  rewrite rewrite_local_resolved.
  destruct (resolved_base_url host hass) as [base|] eqn:Hr.
  - specialize (Hbase base eq_refl).
    destruct (rstrip_slash base) as [|c rest] eqn:Hs.
    + simpl. rewrite convert_cases, Hh, Hl, rewrite_local_resolved, Hr, Hs.
      reflexivity.
    + destruct (rstrip_slash_head _ _ _ Hs) as [tail Ht].
      assert (Hc : c <> "/"%char).
      { intros ->. apply Hbase. exists tail. exact Ht. }
      rewrite convert_cases. simpl String.append.
      assert (Hn : startswith_any (String c (rest ++ path)) LOCAL_PATH_PREFIXES
                   = false).
      { destruct (startswith_any (String c (rest ++ path)) LOCAL_PATH_PREFIXES)
          eqn:E; [|reflexivity].
        apply startswith_any_spec in E as [p [Hin Hp]].
        apply startswith_spec in Hp.
        now rewrite (startswith_other_head c _ p Hc Hin) in Hp. }
      rewrite Hn.
      now destruct (startswith_any (String c (rest ++ path))
                      ["http://"; "https://"]).
  - rewrite convert_cases, Hh, Hl, rewrite_local_resolved, Hr. reflexivity.
Qed.

Lemma conversion_idempotent_witness :
  snd (_convert_local_path_to_url picky_host two_accounts
         (snd (_convert_local_path_to_url picky_host two_accounts
                 "/media/clip.mp4")))
  = "https://a.example/media/clip.mp4"%string.
Proof.
  rewrite (conversion_idempotent picky_host two_accounts "/media/clip.mp4").
  - reflexivity.
  - intros base H. vm_compute in H. injection H as <-.
    intros [r Hr]. discriminate.
Defined.





(** X4: an exception of the provider's SDK that is not a [TwilioRestException]
    ends the invocation where it occurs: the targets up to and including the
    one that raised got their call, the targets after it get none, and the
    exception leaves the handler. *)
Theorem uncaught_exception_stops_sends (host : Host) (hass : HomeAssistant)
  (call : ServiceCall) (ev : list Event) (r : Rendered) (pre : list string)
  (target : string) (post : list string) :
  In (call_from_number call) (_get_all_phone_numbers hass) ->
  render_call host hass call = (ev, Some r) ->
  r_targets r = pre ++ target :: post ->
  (forall i c kwargs, i < length pre ->
                      messages_create host i c kwargs <> RaisedOther) ->
  (forall c kwargs, messages_create host (length pre) c kwargs = RaisedOther) ->
  exists entry_client,
    find_entry_client hass (call_from_number call) = Some entry_client
    /\ snd (async_send_message host hass call) = Raised
    /\ provider_calls (fst (async_send_message host hass call))
       = map (fun t =>
                (entry_client,
                 _send_twilio_message_kwargs t (r_message r)
                   (call_from_number call) (r_media r)))
           (pre ++ [target]).
Proof.
  intros Hin Hr Ht Hok Hbad.
  destruct (known_sender_run host hass call ev r Hin Hr) as [c [Hc Hrun]].
  exists c. split; [assumption|]. rewrite Hrun, Ht. simpl fst. simpl snd.
  destruct (send_loop_abort host hass c (r_message r) (call_from_number call)
              (r_media r) target post pre 0) as [H1 H2].
  - intros i c' kw Hi. apply Hok. lia.
  - apply Hbad.
  - split; [exact H1|].
    pose proof (render_call_warning host hass call) as Hw. rewrite Hr in Hw.
    simpl in Hw.
    destruct (warnings_silent _ Hw) as [Hm _].
    now rewrite provider_calls_app, Hm, H2.
Qed.

Lemma uncaught_exception_stops_sends_witness :
  let call :=
    mkServiceCall [IsStr "+15559990000"; IsStr "+15559990001";
                   IsStr "+15559990002"]
      (IsStr "door open") None "+15550001" in
  snd (async_send_message offline_host two_accounts call) = Raised
  /\ map (fun ck => to (snd ck))
       (provider_calls (fst (async_send_message offline_host two_accounts call)))
     = ["+15559990000"; "+15559990001"]%string.
Proof.
  intros call.
  destruct (uncaught_exception_stops_sends offline_host two_accounts call []
              (mkRendered ["+15559990000"; "+15559990001"; "+15559990002"]%string
                 "door open" None)
              ["+15559990000"%string] "+15559990001"%string
              ["+15559990002"%string]) as [c [_ [Hr Hc]]].
  - vm_compute. tauto.
  - reflexivity.
  - reflexivity.
  - intros [|i] c kw Hi; [discriminate | simpl in Hi; lia].
  - reflexivity.
  - split; [exact Hr|]. rewrite Hc. reflexivity.
Defined.

Lemma send_loop_quiet host hass c message from_number media_urls :
  _is_debug_enabled hass = false ->
  forall targets sent,
    logged_at WARNING
      (fst (send_loop host hass c message from_number media_urls sent targets))
    = [].
Proof.
  intros Hd. induction targets as [|target rest IH]; intros sent; simpl.
  - reflexivity.
  - specialize (IH (S sent)).
    destruct (send_loop host hass c message from_number media_urls (S sent) rest)
      as [evs comp]. simpl in IH. rewrite Hd.
    destruct (messages_create host sent c _); simpl;
      first [assumption | reflexivity].
Qed.

(** With debug off, the warnings of one conversion. *)
Lemma convert_quiet host hass path :
  _is_debug_enabled hass = false ->
  logged_at WARNING (fst (_convert_local_path_to_url host hass path))
  = if is_local_b path
    then match resolved_base_url host hass with
         | Some _ => []
         | None => [(MSG_NO_EXTERNAL_URL, [ArgStr path])]
         end
    else [].
Proof.
  intros Hd. rewrite convert_cases. unfold is_local_b.
  destruct (startswith_any path ["http://"; "https://"]); [reflexivity|].
  destruct (startswith_any path LOCAL_PATH_PREFIXES); [|reflexivity]. simpl.
  unfold resolved_base_url.
  destruct (_get_external_url hass) as [b|] eqn:Hb.
  - rewrite (rewrite_with_base host hass path b (or_introl Hb)), Hd.
    reflexivity.
  - destruct (get_url host) as [b|] eqn:Hg.
    + rewrite (rewrite_with_base host hass path b (or_intror (conj Hb Hg))), Hd.
      reflexivity.
    + now rewrite (rewrite_without_base host hass path Hb Hg).
Qed.

(** X5: with debug logging switched off in every entry, the warnings of an
    invocation whose templates all render are exactly these: when no base
    URL can be resolved, one unresolved-URL warning for each rendered media
    reference that is neither absolute nor outside the local prefixes, in
    the order of the references; and none at all when a base URL resolves
    or the call has no media reference. *)
Theorem quiet_without_debug (host : Host) (hass : HomeAssistant)
  (call : ServiceCall) (ev : list Event) (r : Rendered) :
  (forall e, In e (entries hass) -> debug e = false) ->
  render_call host hass call = (ev, Some r) ->
  let warnings := logged_at WARNING (fst (async_send_message host hass call)) in
  (call_media_url call = None -> warnings = [])
  /\ (forall refs paths,
        call_media_url call = Some refs ->
        render_all host refs = Some paths ->
        warnings
        = match resolved_base_url host hass with
          | Some _ => []
          | None => map (fun path => (MSG_NO_EXTERNAL_URL, [ArgStr path]))
                      (filter is_local_b paths)
          end).
Proof.
  intros Hall Hr. cbv zeta.
  assert (Hd : _is_debug_enabled hass = false).
  { unfold _is_debug_enabled.
    destruct (existsb debug (entries hass)) eqn:E; [|reflexivity].
    apply existsb_exists in E as [e [He Hde]]. rewrite (Hall e He) in Hde.
    discriminate. }
  assert (Hrun : logged_at WARNING (fst (async_send_message host hass call))
                 = logged_at WARNING ev).
  { rewrite (rendered_run _ _ _ _ _ Hr).
    destruct (negb _); simpl.
    - rewrite logged_at_app. simpl. apply app_nil_r.
    - destruct (find_entry_client hass (call_from_number call)); simpl;
        rewrite logged_at_app.
      + rewrite (send_loop_quiet _ _ _ _ _ _ Hd). apply app_nil_r.
      + simpl. apply app_nil_r. }
  assert (Hflat : forall paths,
             logged_at WARNING
               (flat_map (fun p => fst (_convert_local_path_to_url host hass p))
                  paths)
             = match resolved_base_url host hass with
               | Some _ => []
               | None => map (fun path => (MSG_NO_EXTERNAL_URL, [ArgStr path]))
                           (filter is_local_b paths)
               end).
  { induction paths as [|p paths IH]; simpl.
    - now destruct (resolved_base_url host hass).
    - rewrite logged_at_app, IH, (convert_quiet host hass p Hd).
      destruct (is_local_b p); destruct (resolved_base_url host hass);
        reflexivity. }
  rewrite Hrun. destruct (render_call_some _ _ _ _ _ Hr) as [_ [_ Hmedia]].
  split.
  - intros Hnone. rewrite Hnone in Hmedia. now destruct Hmedia as [_ ->].
  - intros refs paths Hrefs Hpaths. rewrite Hrefs in Hmedia.
    destruct refs as [|u refs].
    + destruct Hmedia as [_ ->]. simpl in Hpaths. injection Hpaths as <-.
      now destruct (resolved_base_url host hass).
    + destruct Hmedia as [paths' [Hp' [_ ->]]].
      rewrite Hpaths in Hp'. injection Hp' as <-. apply Hflat.
Qed.

Lemma quiet_without_debug_witness :
  let call :=
    mkServiceCall [IsStr "+15559990000"] (IsStr "door open")
      (Some [IsStr "/local/photo.jpg"; IsStr "https://cdn.example/a.png";
             IsStr "/media/clip.mp4"])
      "+15550001" in
  let hass :=
    mkHass (Some [("e1"%string,
                   mkEntryData (mkClient "AC1" "t1") ["+15550001"%string]
                     "" false)])
      None None in
  logged_at WARNING (fst (async_send_message picky_host hass call))
  = [(MSG_NO_EXTERNAL_URL, [ArgStr "/local/photo.jpg"]);
     (MSG_NO_EXTERNAL_URL, [ArgStr "/media/clip.mp4"])].
Proof.
  intros call hass.
  refine (proj2 (quiet_without_debug picky_host hass call
                   [Logged WARNING MSG_NO_EXTERNAL_URL [ArgStr "/local/photo.jpg"];
                    Logged WARNING MSG_NO_EXTERNAL_URL [ArgStr "/media/clip.mp4"]]
                   (mkRendered ["+15559990000"%string] "door open"
                      (Some ["/local/photo.jpg"; "https://cdn.example/a.png";
                             "/media/clip.mp4"]%string))
                   _ eq_refl)
            _ ["/local/photo.jpg"; "https://cdn.example/a.png";
               "/media/clip.mp4"]%string eq_refl eq_refl).
  intros e [<-|[]]. reflexivity.
Defined.

(** * Further properties of the entry lifecycle *)

Lemma get_set_same {V} k (v : V) d : PyDict.get k (PyDict.set k v d) = Some v.
Proof.
  induction d as [|[k' v'] d IH]; simpl.
  - now rewrite String.eqb_refl.
  - destruct (String.eqb k k') eqn:E; simpl.
    + now rewrite String.eqb_refl.
    + now rewrite E.
Qed.

Lemma get_set_other {V} k k' (v : V) d :
  k' <> k -> PyDict.get k' (PyDict.set k v d) = PyDict.get k' d.
Proof.
  intros Hne. induction d as [|[k0 v0] d IH]; simpl.
  - destruct (String.eqb_spec k' k); [contradiction | reflexivity].
  - destruct (String.eqb_spec k k0) as [->|Hk]; simpl.
    + destruct (String.eqb_spec k' k0); [contradiction | reflexivity].
    + now rewrite IH.
Qed.

Lemma keys_set {V} k (v : V) d :
  PyDict.keys (PyDict.set k v d)
  = if py_in k (PyDict.keys d) then PyDict.keys d else PyDict.keys d ++ [k].
Proof.
  induction d as [|[k' v'] d IH]; simpl; [reflexivity|].
  destruct (String.eqb_spec k k') as [->|Hne]; simpl; [reflexivity|].
  rewrite IH. now destruct (py_in k (PyDict.keys d)).
Qed.

Lemma get_none_iff {V} k (d : PyDict.t V) :
  PyDict.get k d = None <-> ~ In k (PyDict.keys d).
Proof.
  induction d as [|[k' v'] d IH]; simpl; [tauto|].
  destruct (String.eqb_spec k k') as [->|Hne].
  - split; [discriminate | tauto].
  - rewrite IH. intuition congruence.
Qed.

Lemma pop_none_iff {V} k (d : PyDict.t V) :
  PyDict.pop k d = None <-> ~ In k (PyDict.keys d).
Proof.
  induction d as [|[k' v'] d IH]; simpl; [tauto|].
  destruct (String.eqb_spec k k') as [->|Hne].
  - split; [discriminate | tauto].
  - destruct (PyDict.pop k d); simpl.
    + split; [discriminate|]. intros H. exfalso.
      assert (Hn : ~ In k (PyDict.keys d)) by tauto.
      apply IH in Hn. discriminate.
    + split; [|reflexivity]. intros _ [H|H]; [congruence|].
      now apply (proj1 IH eq_refl).
Qed.

Lemma pop_set_fresh {V} k (v : V) d :
  ~ In k (PyDict.keys d) -> PyDict.pop k (PyDict.set k v d) = Some d.
Proof.
  induction d as [|[k' v'] d IH]; simpl; intros H.
  - now rewrite String.eqb_refl.
  - destruct (String.eqb_spec k k') as [->|Hne]; [tauto|]. simpl.
    destruct (String.eqb_spec k k'); [contradiction|].
    rewrite IH; [reflexivity | tauto].
Qed.

Lemma get_app_fresh {V} k (pre post : PyDict.t V) :
  ~ In k (PyDict.keys pre) -> PyDict.get k (pre ++ post) = PyDict.get k post.
Proof.
  induction pre as [|[k' v'] pre IH]; simpl; intros H; [reflexivity|].
  destruct (String.eqb_spec k k') as [->|Hne]; [tauto|]. apply IH. tauto.
Qed.

Lemma get_app_other {V} k k' (v : V) pre post :
  k' <> k ->
  PyDict.get k' (pre ++ (k, v) :: post) = PyDict.get k' (pre ++ post).
Proof.
  intros Hne. induction pre as [|[k0 v0] pre IH]; simpl.
  - destruct (String.eqb_spec k' k); [contradiction | reflexivity].
  - now rewrite IH.
Qed.

Lemma nodup_snoc (l : list string) k : NoDup l -> ~ In k l -> NoDup (l ++ [k]).
Proof.
  induction 1 as [|x l Hx Hl IH]; simpl; intros Hk.
  - repeat constructor. intros [].
  - constructor.
    + rewrite in_app_iff. simpl. intuition congruence.
    + apply IH. tauto.
Qed.

Lemma reachable_keys_nodup hass :
  reachable hass -> NoDup (PyDict.keys (get_or (domain_data hass) [])).
Proof.
  induction 1 as [|hass entry Hr IH|hass entry hass' calls Hr IH Hu].
  - constructor.
  - destruct (setup_state hass entry) as [-> _]. simpl. rewrite keys_set.
    destruct (py_in (entry_id entry) (PyDict.keys (get_or (domain_data hass) [])))
      eqn:E; [assumption|].
    apply nodup_snoc; [assumption | now apply py_in_false].
  - unfold async_unload_entry in Hu.
    destruct (domain_data hass) as [d|]; [|discriminate]. simpl in IH.
    destruct (PyDict.pop (entry_id entry) d) as [d'|] eqn:Hp; [|discriminate].
    assert (Hd : get_or (domain_data hass') [] = d').
    { destruct d'; injection Hu as <- _; reflexivity. }
    rewrite Hd. apply pop_spec in Hp as [pre [v [post [-> [_ ->]]]]].
    unfold PyDict.keys in *. rewrite map_app in *. simpl in IH.
    now apply NoDup_remove_1 in IH.
Qed.

(** X8: after an activation the registry answers the entry's id with the record
    just built from the entry, every other id with what it held before, and
    the ids keep their order: an id already present stays in place, a new
    one goes last. *)
Theorem setup_stores_entry (hass : HomeAssistant) (entry : ConfigEntry) :
  let data := get_or (domain_data hass) [] in
  let data' := get_or (domain_data (fst (async_setup_entry hass entry))) [] in
  PyDict.get (entry_id entry) data' = Some (entry_data_of entry)
  /\ (forall k, k <> entry_id entry -> PyDict.get k data' = PyDict.get k data)
  /\ PyDict.keys data'
     = if py_in (entry_id entry) (PyDict.keys data)
       then PyDict.keys data
       else PyDict.keys data ++ [entry_id entry].
Proof.
  cbv zeta. destruct (setup_state hass entry) as [-> _]. simpl.
  split; [apply get_set_same|]. split; [|apply keys_set].
  intros k Hk. now apply get_set_other.
Qed.

Lemma setup_stores_entry_witness :
  PyDict.get "entry-b"
    (get_or (domain_data (fst (async_setup_entry two_accounts account_a))) [])
  = PyDict.get "entry-b" (get_or (domain_data two_accounts) []).
Proof.
  apply (proj1 (proj2 (setup_stores_entry two_accounts account_a))).
  discriminate.
Defined.

(** X9: A deactivation raises [KeyError] exactly when the registry holds no
    record under the entry's id; this covers a registry that was never
    created. *)
Theorem unload_fails_iff_absent (hass : HomeAssistant) (entry : ConfigEntry) :
  async_unload_entry hass entry = None
  <-> ~ In (entry_id entry) (PyDict.keys (get_or (domain_data hass) [])).
Proof.
  unfold async_unload_entry. destruct (domain_data hass) as [d|]; simpl.
  - rewrite <- pop_none_iff.
    destruct (PyDict.pop (entry_id entry) d) as [[|x d']|];
      split; congruence.
  - split; [intros _ [] | reflexivity].
Qed.

(** X10: the registry of a reachable state holds one record per entry id, and a
    deactivation that succeeds leaves no record under the entry's id while
    every other id keeps its record. *)
Theorem unload_removes_entry (hass : HomeAssistant) (entry : ConfigEntry)
  (hass' : HomeAssistant) (calls : list ServiceApiCall) :
  reachable hass ->
  async_unload_entry hass entry = Some (hass', calls) ->
  let data := get_or (domain_data hass) [] in
  let data' := get_or (domain_data hass') [] in
  NoDup (PyDict.keys data)
  /\ NoDup (PyDict.keys data')
  /\ PyDict.get (entry_id entry) data' = None
  /\ forall k, k <> entry_id entry -> PyDict.get k data' = PyDict.get k data.
Proof.
  intros Hr Hu. cbv zeta.
  pose proof (reachable_keys_nodup hass Hr) as Hn.
  pose proof (reachable_keys_nodup hass' (reachable_unload _ _ _ _ Hr Hu)) as Hn'.
  split; [assumption|]. split; [assumption|].
  unfold async_unload_entry in Hu.
  destruct (domain_data hass) as [d|]; [|discriminate]. simpl in *.
  destruct (PyDict.pop (entry_id entry) d) as [d'|] eqn:Hp; [|discriminate].
  assert (Hd : get_or (domain_data hass') [] = d').
  { destruct d'; injection Hu as <- _; reflexivity. }
  rewrite Hd in *. apply pop_spec in Hp as [pre [v [post [-> [Hpre ->]]]]].
  split.
  - apply get_none_iff. unfold PyDict.keys in *. rewrite map_app in *.
    simpl in Hn. apply NoDup_remove_2 in Hn. exact Hn.
  - intros k Hk. symmetry. now apply get_app_other.
Qed.

Lemma unload_removes_entry_witness :
  exists hass' calls,
    async_unload_entry two_accounts account_b = Some (hass', calls)
    /\ PyDict.get "entry-b" (get_or (domain_data hass') []) = None
    /\ PyDict.get "entry-a" (get_or (domain_data hass') [])
       = Some (entry_data_of account_a).
Proof.
  destruct (async_unload_entry two_accounts account_b) as [[hass' calls]|] eqn:Hu;
    [|discriminate].
  exists hass', calls. split; [reflexivity|].
  destruct (unload_removes_entry two_accounts account_b hass' calls
              two_accounts_reachable Hu) as [_ [_ [Hg Ho]]].
  split; [exact Hg|]. rewrite (Ho "entry-a"%string); [reflexivity | discriminate].
Defined.

Lemma unload_fails_iff_absent_witness :
  async_unload_entry initial_hass account_a = None
  /\ async_unload_entry (fst (async_setup_entry initial_hass account_a)) account_b
     = None.
Proof.
  split; apply unload_fails_iff_absent; simpl; intuition discriminate.
Defined.

Lemma reachable_description hass :
  reachable hass -> has_service hass = true ->
  description hass = Some (service_desc_of (_get_all_phone_numbers hass)).
Proof.
  induction 1 as [|hass entry Hr IH|hass entry hass' calls Hr IH Hu]; intros Hs.
  - discriminate.
  - now destruct (setup_state hass entry) as [_ [_ ->]].
  - unfold async_unload_entry in Hu.
    destruct (domain_data hass) as [d|]; [|discriminate].
    destruct (PyDict.pop (entry_id entry) d) as [[|x d']|]; [| |discriminate];
      injection Hu as <- _; [discriminate | reflexivity].
Qed.

(** X11: while the action is registered, the description published for it lists
    exactly the aggregate sender list of the registry, in every state the
    host can reach by activations and deactivations. *)
Theorem description_follows_registry (hass : HomeAssistant) :
  reachable hass ->
  has_service hass = true ->
  exists desc,
    description hass = Some desc
    /\ options (desc_from_number desc) = _get_all_phone_numbers hass
    /\ custom_value (desc_from_number desc) = false
    /\ forall n, In n (options (desc_from_number desc))
                 <-> exists e, In e (entries hass) /\ In n (phone_numbers e).
Proof.
  intros Hr Hs. exists (service_desc_of (_get_all_phone_numbers hass)).
  split; [now apply reachable_description|]. split; [reflexivity|].
  split; [reflexivity|]. intros n. apply all_numbers_In.
Qed.

Lemma description_follows_registry_witness :
  exists desc,
    description two_accounts = Some desc
    /\ options (desc_from_number desc)
       = ["+15550001"; "+15550003"; "+15550002"]%string.
Proof.
  destruct (description_follows_registry two_accounts two_accounts_reachable
              eq_refl) as [desc [Hd [Ho _]]].
  exists desc. split; [exact Hd | exact Ho].
Defined.

(** X12: activating a new entry and deactivating it again gives back the state
    it started from, when other entries were active: same registry, same
    registration, same published description. *)
Theorem setup_then_unload_restores (hass : HomeAssistant) (entry : ConfigEntry) :
  reachable hass ->
  entries hass <> [] ->
  ~ In (entry_id entry) (PyDict.keys (get_or (domain_data hass) [])) ->
  async_unload_entry (fst (async_setup_entry hass entry)) entry
  = Some (hass,
          [AsyncSetServiceSchema (service_desc_of (_get_all_phone_numbers hass))]).
Proof.
  intros Hr Hne Hfresh.
  assert (Hs : has_service hass = true) by now apply service_iff_entries.
  pose proof (reachable_description hass Hr Hs) as Hdesc.
  destruct (setup_state hass entry) as [Hd [Hsv _]].
  remember (fst (async_setup_entry hass entry)) as hass1 eqn:E. clear E.
  unfold async_unload_entry. rewrite Hd, (pop_set_fresh _ _ _ Hfresh).
  destruct (domain_data hass) as [[|x d]|] eqn:Hdd;
    try (exfalso; apply Hne; unfold entries; now rewrite Hdd).
  simpl get_or. cbv iota beta.
  unfold _update_service_schema. cbv zeta. simpl domain_data. simpl service.
  match goal with
  | |- context [_get_all_phone_numbers (mkHass ?a ?b ?c)] =>
      rewrite (all_numbers_domain_data (mkHass a b c) hass)
        by (simpl; now rewrite Hdd)
  end.
  f_equal. f_equal.
  unfold has_service in Hs. rewrite Hsv.
  destruct hass as [dd [s|] desc]; simpl in *; [|discriminate].
  rewrite <- Hdesc. now rewrite Hdd.
Qed.

Lemma setup_then_unload_restores_witness :
  let account_c :=
    mkConfigEntry "entry-c" "ACcccc" "token-c" (Some ["+15550009"%string])
      None None None None None in
  option_map fst
    (async_unload_entry (fst (async_setup_entry two_accounts account_c)) account_c)
  = Some two_accounts.
Proof.
  intros account_c.
  rewrite (setup_then_unload_restores two_accounts account_c
             two_accounts_reachable).
  - reflexivity.
  - discriminate.
  - simpl. intuition discriminate.
Defined.

(** X13: activating a new entry leaves the numbers already in the aggregate list
    where they are and puts the entry's numbers that are new after them, in
    the entry's own order and once each. *)
Theorem fresh_activation_extends_aggregate (hass : HomeAssistant)
  (entry : ConfigEntry) :
  ~ In (entry_id entry) (PyDict.keys (get_or (domain_data hass) [])) ->
  _get_all_phone_numbers (fst (async_setup_entry hass entry))
  = _get_all_phone_numbers hass
    ++ filter (fun n => negb (py_in n (_get_all_phone_numbers hass)))
         (keep_first (phone_numbers (entry_data_of entry))).
Proof.
  intros Hfresh.
  rewrite (all_numbers_scan (fst (async_setup_entry hass entry))).
  rewrite (setup_fresh_appends hass entry Hfresh).
  rewrite map_app, concat_app. simpl. rewrite app_nil_r, fold_left_app.
  rewrite <- all_numbers_scan. apply scan_keep_first.
Qed.

Lemma fresh_activation_extends_aggregate_witness :
  _get_all_phone_numbers two_accounts
  = ["+15550001"; "+15550003"]%string ++ ["+15550002"%string].
Proof.
  unfold two_accounts.
  rewrite (fresh_activation_extends_aggregate
             (fst (async_setup_entry initial_hass account_a)) account_b).
  - reflexivity.
  - simpl. intuition discriminate.
Defined.

(** X14: deactivating the only entry and activating it again with new options, as
    a reload does, registers the action afresh: the validator is built from
    the new numbers and admits exactly those, or any string when there is
    none. *)
Theorem reload_single_entry (hass : HomeAssistant) (entry entry' : ConfigEntry)
  (entry_data : EntryData) :
  domain_data hass = Some [(entry_id entry, entry_data)] ->
  entry_id entry' = entry_id entry ->
  exists hass1,
    async_unload_entry hass entry = Some (hass1, [AsyncRemove])
    /\ let hass2 := fst (async_setup_entry hass1 entry') in
       let numbers := phone_numbers (entry_data_of entry') in
       service hass2 = Some (_get_service_schema numbers)
       /\ count_register (snd (async_setup_entry hass1 entry')) = 1
       /\ domain_data hass2 = Some [(entry_id entry, entry_data_of entry')]
       /\ _get_all_phone_numbers hass2 = keep_first numbers
       /\ (numbers <> [] ->
           forall n, accepts (required_from_number (_get_service_schema numbers)) n
                     = true <-> In n numbers).
Proof.
  intros Hd Hid. exists (mkHass (Some []) None (description hass)). split.
  { unfold async_unload_entry. rewrite Hd. simpl.
    now rewrite String.eqb_refl. }
  remember (mkHass (Some []) None (description hass)) as hass1 eqn:E.
  assert (Hdd : domain_data hass1 = Some []) by (subst; reflexivity).
  assert (Hsv : service hass1 = None) by (subst; reflexivity).
  clear E. cbv zeta.
  destruct (setup_state hass1 entry') as [Hd2 [Hs2 _]].
  rewrite Hdd in Hd2. rewrite Hsv in Hs2.
  cbn [get_or PyDict.set] in Hd2. rewrite Hid in Hd2.
  split; [exact Hs2|]. split.
  { rewrite setup_registers_once. unfold has_service. now rewrite Hsv. }
  split; [exact Hd2|]. split.
  - rewrite all_numbers_keep_first. unfold entries. rewrite Hd2. simpl.
    now rewrite app_nil_r.
  - intros Hne n.
    destruct (phone_numbers (entry_data_of entry')) as [|p ps] eqn:E;
      [now elim Hne|].
    exact (py_in_In n (p :: ps)).
Qed.

Lemma reload_single_entry_witness :
  let hass := fst (async_setup_entry initial_hass account_a) in
  let account_a' :=
    mkConfigEntry "entry-a" "ACaaaa" "token-a"
      (Some ["+15550001"; "+15550003"]%string) (Some "https://a.example/"%string)
      None (Some ["+15550003"%string]) None None in
  exists hass1,
    async_unload_entry hass account_a = Some (hass1, [AsyncRemove])
    /\ option_map required_from_number
         (service (fst (async_setup_entry hass1 account_a')))
       = Some (InValidator ["+15550003"%string]).
Proof.
  intros hass account_a'.
  destruct (reload_single_entry hass account_a account_a'
              (entry_data_of account_a) eq_refl eq_refl) as [hass1 [Hu [Hs _]]].
  exists hass1. split; [exact Hu|]. now rewrite Hs.
Defined.

(** * Further properties of the wizard *)

(** X15: [validate_credentials] hands on a provider failure as it is, and turns a
    list of numbers into a list of the same length and order with the same
    ids and phone numbers, where the display name is the provider's unless
    that is missing or empty, in which case it is the phone number. *)
Theorem validate_credentials_keeps_numbers (provider : Provider)
  (account_sid auth_token : string) :
  match provider account_sid auth_token with
  | SdkOk numbers =>
      exists infos,
        validate_credentials provider account_sid auth_token = SdkOk infos
        /\ map info_sid infos = map sid numbers
        /\ map info_phone_number infos = map phone_number numbers
        /\ forall info, In info infos ->
                        info_friendly_name info = ""%string ->
                        info_phone_number info = ""%string
  | SdkRestException err =>
      validate_credentials provider account_sid auth_token = SdkRestException err
  | SdkOtherException =>
      validate_credentials provider account_sid auth_token = SdkOtherException
  end.
Proof.
  unfold validate_credentials.
  destruct (provider account_sid auth_token) as [numbers|err|]; try reflexivity.
  eexists. split; [reflexivity|]. rewrite !map_map. simpl.
  split; [reflexivity|]. split; [reflexivity|].
  intros info Hin Hname. apply in_map_iff in Hin as [n [<- _]]. simpl in *.
  destruct (friendly_name n) as [[|c name]|]; simpl in Hname;
    first [assumption | discriminate].
Qed.

Example validate_credentials_sample :
  let provider : Provider :=
    fun _ _ => SdkOk [mkIncoming "PN1" "+15550001" (Some "Front desk");
                      mkIncoming "PN2" "+15550002" (Some "");
                      mkIncoming "PN3" "+15550003" None] in
  validate_credentials provider "ACaaaa" "token-a"
  = SdkOk [mkNumberInfo "PN1" "+15550001" "Front desk";
           mkNumberInfo "PN2" "+15550002" "+15550002";
           mkNumberInfo "PN3" "+15550003" "+15550003"].
Proof. reflexivity. Qed.

Lemma number_options_keys available : forall acc,
  PyDict.keys
    (fold_left
       (fun acc num =>
          PyDict.set (info_phone_number num)
            (info_friendly_name num ++ " (" ++ info_phone_number num ++ ")")%string
            acc)
       available acc)
  = fold_left append_if_absent (map info_phone_number available)
      (PyDict.keys acc).
Proof.
  induction available as [|num rest IH]; intros acc; simpl; [reflexivity|].
  rewrite IH, keys_set. reflexivity.
Qed.

Lemma number_options_get_other available k : forall acc,
  ~ In k (map info_phone_number available) ->
  PyDict.get k
    (fold_left
       (fun acc num =>
          PyDict.set (info_phone_number num)
            (info_friendly_name num ++ " (" ++ info_phone_number num ++ ")")%string
            acc)
       available acc)
  = PyDict.get k acc.
Proof.
  induction available as [|num rest IH]; intros acc Hk; simpl; [reflexivity|].
  simpl in Hk. rewrite IH by tauto. apply get_set_other. intuition congruence.
Qed.

(** X16: the selector of the number form offers every number the provider
    returned, once, in the provider's order; and when the provider's numbers
    are distinct each is labelled with its display name followed by the
    number in brackets. *)
Theorem selector_options_cover_numbers (available : list NumberInfo) :
  let number_options := number_options_of available in
  PyDict.keys number_options = keep_first (map info_phone_number available)
  /\ NoDup (PyDict.keys number_options)
  /\ (forall k, In k (PyDict.keys number_options)
                <-> exists num, In num available /\ info_phone_number num = k)
  /\ (NoDup (map info_phone_number available) ->
      forall num, In num available ->
                  PyDict.get (info_phone_number num) number_options
                  = Some (info_friendly_name num ++ " ("
                            ++ info_phone_number num ++ ")")%string).
Proof.
  cbv zeta.
  assert (Hk : PyDict.keys (number_options_of available)
               = keep_first (map info_phone_number available)).
  { unfold number_options_of. rewrite number_options_keys, scan_keep_first.
    simpl. apply filter_true. }
  split; [exact Hk|]. rewrite Hk.
  split; [apply keep_first_NoDup|]. split.
  - intros k. rewrite keep_first_In, in_map_iff.
    split; intros [num H]; exists num; tauto.
  - clear Hk. unfold number_options_of. generalize (@nil (string * string)).
    induction available as [|n rest IH]; intros acc Hnd num Hin;
      [contradiction|].
    simpl in Hnd. apply NoDup_cons_iff in Hnd as [Hn Hrest]. simpl.
    destruct Hin as [->|Hin].
    + rewrite number_options_get_other by assumption. apply get_set_same.
    + now apply IH.
Qed.

Lemma selector_options_cover_numbers_witness :
  PyDict.get "+15550002"
    (number_options_of [mkNumberInfo "PN1" "+15550001" "Front desk";
                        mkNumberInfo "PN2" "+15550002" "+15550002"])
  = Some "+15550002 (+15550002)"%string.
Proof.
  refine (proj2 (proj2 (proj2 (selector_options_cover_numbers _))) _
            (mkNumberInfo "PN2" "+15550002" "+15550002") _).
  - repeat constructor; simpl; intuition discriminate.
  - right. now left.
Defined.

Lemma rstrip_slash_fixed s : ~ ends_with s "/" -> rstrip_slash s = s.
Proof.
  induction s as [|c s IH]; intros H; [reflexivity|]. simpl.
  destruct s as [|d s'].
  - simpl. destruct (Ascii.eqb_spec c "/") as [->|Hne]; [|reflexivity].
    exfalso. apply H. now exists ""%string.
  - rewrite IH; [reflexivity|].
    intros [front Hf]. apply H. exists (String c front). simpl. now rewrite Hf.
Qed.

Lemma normalize_url_fixed env raw :
  rstrip_slash (normalize_url env raw) = normalize_url env raw.
Proof. apply rstrip_slash_fixed, rstrip_slash_no_trailing. Qed.

(** X17: the selection step creates an entry only for a non-empty selection that
    the host's unique id check lets through; the entry then holds the
    credentials kept by the flow, the numbers as selected, and an external
    URL that does not end in a slash. *)
Theorem wizard_entry_is_well_formed (env : FlowEnv) (self : TwilioConfigFlow)
  (user_input : option ConfigFlow.UserInput) (title : string)
  (data : ConfigFlow.EntryDict) :
  ConfigFlow.async_step_select_numbers env self user_input
  = ConfigFlow.CreateEntry title data ->
  exists input,
    user_input = Some input
    /\ ConfigFlow.input_phone_numbers input
       = Some (ConfigFlow.new_phone_numbers data)
    /\ ConfigFlow.new_phone_numbers data <> []
    /\ unique_id_abort env (_account_sid self) = None
    /\ ConfigFlow.new_account_sid data = _account_sid self
    /\ ConfigFlow.new_auth_token data = _auth_token self
    /\ ~ ends_with (ConfigFlow.new_external_url data) "/"
    /\ title = "Twilio SMS"%string.
Proof.
  unfold ConfigFlow.async_step_select_numbers.
  destruct user_input as [input|]; [|discriminate].
  destruct (ConfigFlow.input_phone_numbers input) as [[|n ns]|] eqn:Hsel;
    simpl; try discriminate.
  destruct (unique_id_abort env (_account_sid self)) eqn:Hu; [discriminate|].
  intros [= <- <-]. exists input. simpl.
  repeat split; try assumption; try discriminate.
  apply rstrip_slash_no_trailing.
Qed.

Lemma wizard_entry_is_well_formed_witness :
  let self := mkConfigFlow (Some "ACbbbb"%string) (Some "token-b"%string)
                [mkNumberInfo "PN2" "+15550002" "Office"] in
  let input :=
    ConfigFlow.mkUserInput (Some ["+15550002"%string])
      (Some "https://b.example//"%string) in
  exists data,
    ConfigFlow.async_step_select_numbers sample_env self (Some input)
    = ConfigFlow.CreateEntry "Twilio SMS" data
    /\ ConfigFlow.new_external_url data = "https://b.example"%string
    /\ ConfigFlow.new_account_sid data = Some "ACbbbb"%string.
Proof.
  intros self input.
  destruct (ConfigFlow.async_step_select_numbers sample_env self (Some input))
    as [f|title data|r] eqn:E; try discriminate.
  destruct (wizard_entry_is_well_formed sample_env self (Some input) title data E)
    as [_ [_ [_ [_ [_ [Hsid [_ [_ ->]]]]]]]].
  exists data. split; [reflexivity|].
  vm_compute in E. injection E as <-. split; [reflexivity | exact Hsid].
Defined.

(** X18: the two steps of the wizard in a row: what the selection step stores,
    and what it asks the host to check for duplicates, are the credentials
    entered in the credential step, whether or not a previous attempt had
    left other credentials in the flow. *)
Theorem wizard_keeps_entered_credentials (env : FlowEnv) (provider : Provider)
  (self : TwilioConfigFlow) (account_sid auth_token : string)
  (user_input : option ConfigFlow.UserInput) :
  let self' :=
    fst (fst (async_step_user provider self (Some (account_sid, auth_token)))) in
  _account_sid self' = Some account_sid
  /\ _auth_token self' = Some auth_token
  /\ forall title data,
       ConfigFlow.async_step_select_numbers env self' user_input
       = ConfigFlow.CreateEntry title data ->
       ConfigFlow.new_account_sid data = Some account_sid
       /\ ConfigFlow.new_auth_token data = Some auth_token
       /\ unique_id_abort env (Some account_sid) = None.
Proof.
  cbv zeta.
  assert (H : _account_sid
                (fst (fst (async_step_user provider self
                             (Some (account_sid, auth_token)))))
              = Some account_sid
              /\ _auth_token
                   (fst (fst (async_step_user provider self
                                (Some (account_sid, auth_token)))))
                 = Some auth_token).
  { unfold async_step_user.
    destruct (validate_credentials provider account_sid auth_token)
      as [[|n ns]|err|]; split; reflexivity. }
  destruct H as [Hs Ht]. split; [exact Hs|]. split; [exact Ht|].
  intros title data.
  unfold ConfigFlow.async_step_select_numbers.
  destruct user_input as [input|]; [|discriminate].
  destruct (get_or (ConfigFlow.input_phone_numbers input) []); [discriminate|].
  rewrite Hs, Ht.
  destruct (unique_id_abort env (Some account_sid)); [discriminate|].
  intros [= _ <-]. now repeat split.
Qed.

Lemma wizard_keeps_entered_credentials_witness :
  let data :=
    ConfigFlow.mkEntryDict (Some "ACbbbb"%string) (Some "token-b"%string)
      ["+15550002"%string] "" in
  ConfigFlow.new_account_sid data = Some "ACbbbb"%string
  /\ ConfigFlow.new_auth_token data = Some "token-b"%string
  /\ unique_id_abort sample_env (Some "ACbbbb"%string) = None.
Proof.
  intros data.
  apply (proj2 (proj2 (wizard_keeps_entered_credentials sample_env
                         (fun _ _ => SdkOk [mkIncoming "PN2" "+15550002"
                                              (Some "Office"%string)])
                         (mkConfigFlow (Some "ACold"%string) (Some "old"%string) [])
                         "ACbbbb"%string "token-b"%string
                         (Some (ConfigFlow.mkUserInput
                                  (Some ["+15550002"%string]) None))))
           "Twilio SMS"%string data).
  reflexivity.
Defined.

(** X19: an external URL as the wizard or the options step stores it is joined to
    a local media reference as it stands: the dispatcher finds no slash left
    to strip. *)
Theorem stored_url_joined_as_is (env : FlowEnv) (raw : option string)
  (host : Host) (hass : HomeAssistant) (path : string) :
  _get_external_url hass = Some (normalize_url env raw) ->
  is_local_reference path ->
  snd (_convert_local_path_to_url host hass path)
  = (normalize_url env raw ++ path)%string.
Proof.
  intros Hb Hl. rewrite (convert_local _ _ _ Hl).
  rewrite (rewrite_with_base host hass path _ (or_introl Hb)). simpl.
  now rewrite normalize_url_fixed.
Qed.

Lemma stored_url_joined_as_is_witness :
  let hass :=
    mkHass (Some [("e1"%string,
                   mkEntryData (mkClient "AC1" "t1") ["+15550001"%string]
                     (normalize_url sample_env (Some "https://ha.example///"%string))
                     false)])
      None None in
  snd (_convert_local_path_to_url picky_host hass "/local/photo.jpg")
  = "https://ha.example/local/photo.jpg"%string.
Proof.
  intros hass.
  refine (stored_url_joined_as_is sample_env (Some "https://ha.example///"%string)
            picky_host hass "/local/photo.jpg"%string eq_refl _).
  repeat split; try (intros [r Hr]; discriminate).
  exists "/local/"%string. split; [now left | now exists "photo.jpg"%string].
Defined.

(** X20: the options step creates an options entry only when the provider
    answered the credential check and the selection is not empty; the entry
    then holds the selection, an external URL that does not end in a slash,
    and the debug flag of the input, off when the input has none.  When the
    provider fails, whatever was submitted, the step shows its form again
    with [cannot_connect] and keeps the numbers it knew. *)
Theorem options_entry_is_well_formed (env : FlowEnv) (provider : Provider)
  (config_entry : ConfigEntry) (available : list NumberInfo)
  (user_input : option OptionsFlow.UserInput) :
  let result :=
    OptionsFlow.async_step_init env provider config_entry available user_input in
  (forall title data,
      snd result = OptionsFlow.CreateEntry title data ->
      exists numbers input,
        validate_credentials provider (data_account_sid config_entry)
          (data_auth_token config_entry) = SdkOk numbers
        /\ fst (fst result) = numbers
        /\ user_input = Some input
        /\ OptionsFlow.input_phone_numbers input
           = Some (OptionsFlow.new_phone_numbers data)
        /\ OptionsFlow.new_phone_numbers data <> []
        /\ ~ ends_with (OptionsFlow.new_external_url data) "/"
        /\ OptionsFlow.new_debug data
           = get_or (OptionsFlow.input_debug input) false
        /\ title = ""%string)
  /\ ((forall numbers,
          validate_credentials provider (data_account_sid config_entry)
            (data_auth_token config_entry) <> SdkOk numbers) ->
      snd result = OptionsFlow.Form "init" None [("base", "cannot_connect")%string]
      /\ fst (fst result) = available).
Proof.
  cbv zeta. unfold OptionsFlow.async_step_init.
  destruct (validate_credentials provider (data_account_sid config_entry)
              (data_auth_token config_entry)) as [numbers|err|].
  - split.
    + intros title data.
      destruct user_input as [input|]; simpl; [|discriminate].
      destruct (OptionsFlow.input_phone_numbers input) as [[|n ns]|] eqn:Hsel;
        simpl; try discriminate.
      intros [= <- <-]. exists numbers, input. simpl.
      repeat split; try assumption; try discriminate.
      apply rstrip_slash_no_trailing.
    + intros H. exfalso. now apply (H numbers).
  - split; [intros ? ?; discriminate | now split].
  - split; [intros ? ?; discriminate | now split].
Qed.

Lemma options_entry_is_well_formed_witness :
  let provider : Provider := fun _ _ => SdkOtherException in
  let input :=
    OptionsFlow.mkUserInput (Some ["+15550001"%string]) None (Some true) in
  snd (OptionsFlow.async_step_init sample_env provider account_a [] (Some input))
  = OptionsFlow.Form "init" None [("base", "cannot_connect")%string].
Proof.
  intros provider input.
  refine (proj1 (proj2 (options_entry_is_well_formed sample_env provider
                          account_a [] (Some input)) _)).
  intros numbers. discriminate.
Defined.

(** * Further properties of the handler *)

Lemma send_loop_errors_format host hass c message from_number media_urls :
  forall targets sent f a,
    In (f, a)
      (logged_at ERROR
         (fst (send_loop host hass c message from_number media_urls sent
                 targets))) ->
    f = "Failed to send SMS to %s: %s"%string.
Proof.
  induction targets as [|target rest IH]; intros sent f a; simpl.
  - intros [].
  - specialize (IH (S sent) f a).
    destruct (send_loop host hass c message from_number media_urls (S sent) rest)
      as [evs comp]. simpl in IH.
    destruct (_is_debug_enabled hass);
      destruct (messages_create host sent c _); simpl;
      intros H; try contradiction; try (now apply IH);
      destruct H as [[= <- _]|H]; try reflexivity; now apply IH.
Qed.

(** X6: the handler's second error, [No client found], is never logged: a number
    found in the aggregate list always has an owning entry, both being read
    from the same registry.  The error records of an invocation are the one
    for an unknown sender or those of failed sends. *)
Theorem no_client_error_never_logged (host : Host) (hass : HomeAssistant)
  (call : ServiceCall) :
  forall f a,
    In (f, a) (logged_at ERROR (fst (async_send_message host hass call))) ->
    (f = "from_number %s not in configured numbers"%string
     /\ ~ In (call_from_number call) (_get_all_phone_numbers hass))
    \/ (f = "Failed to send SMS to %s: %s"%string
        /\ In (call_from_number call) (_get_all_phone_numbers hass)).
Proof.
  intros f a. pose proof (render_call_warning host hass call) as Hw.
  destruct (render_call host hass call) as [ev [r|]] eqn:Hr; simpl in Hw;
    destruct (warnings_silent _ Hw) as [_ He].
  - rewrite (rendered_run _ _ _ _ _ Hr).
    destruct (py_in (call_from_number call) (_get_all_phone_numbers hass))
      eqn:Hin; simpl.
    + apply py_in_In in Hin.
      destruct (known_sender_has_owner _ _ Hin) as [pre [e [post [_ [_ [_ Hc]]]]]].
      rewrite Hc. simpl. rewrite logged_at_app, He. simpl. intros H. right.
      split; [|assumption]. eapply send_loop_errors_format. exact H.
    + apply py_in_false in Hin. rewrite logged_at_app, He. simpl.
      intros [[= <- _]|[]]. left. now split.
  - rewrite (failed_render_run _ _ _ _ Hr). simpl. rewrite He. intros [].
Qed.

Lemma no_client_error_never_logged_witness :
  let call :=
    mkServiceCall [IsStr "+15559990000"; IsStr "+15559990001"]
      (IsStr "door open") None "+15550003" in
  ("Failed to send SMS to %s: %s"%string
   = "from_number %s not in configured numbers"%string
   /\ ~ In "+15550003"%string (_get_all_phone_numbers two_accounts))
  \/ ("Failed to send SMS to %s: %s"%string = "Failed to send SMS to %s: %s"%string
      /\ In "+15550003"%string (_get_all_phone_numbers two_accounts)).
Proof.
  intros call.
  apply (no_client_error_never_logged picky_host two_accounts call
           "Failed to send SMS to %s: %s"%string
           [ArgStr "+15559990001";
            ArgErr (mkRestException 400 (Some 21211%Z)
                      "Invalid 'To' Phone Number")]).
  vm_compute. tauto.
Defined.

Lemma render_plain r r' g m values :
  Forall is_plain values ->
  render_all (mkHost r g m) values = render_all (mkHost r' g m) values
  /\ option_map (map IsStr) (render_all (mkHost r g m) values) = Some values.
Proof.
  induction 1 as [|v values Hv _ [IH1 IH2]]; simpl; [now split|].
  destruct v as [t|s]; [contradiction|]. simpl. rewrite <- IH1.
  destruct (render_all (mkHost r g m) values) as [l|]; simpl in *;
    [|discriminate].
  injection IH2 as ->. now split.
Qed.

Lemma convert_ignores_render r r' g m hass path :
  _convert_local_path_to_url (mkHost r g m) hass path
  = _convert_local_path_to_url (mkHost r' g m) hass path.
Proof. rewrite !convert_cases. reflexivity. Qed.

Lemma send_loop_ignores_render r r' g m hass c message from_number media_urls :
  forall targets sent,
    send_loop (mkHost r g m) hass c message from_number media_urls sent targets
    = send_loop (mkHost r' g m) hass c message from_number media_urls sent
        targets.
Proof.
  induction targets as [|target rest IH]; intros sent; simpl; [reflexivity|].
  now rewrite IH.
Qed.

Lemma media_plain r r' g m hass refs :
  Forall is_plain refs ->
  convert_media (mkHost r g m) hass refs = convert_media (mkHost r' g m) hass refs
  /\ snd (convert_media (mkHost r g m) hass refs) <> None.
Proof.
  induction 1 as [|v refs Hv _ [IH1 IH2]]; simpl; [split; [reflexivity | discriminate]|].
  destruct v as [t|s]; [contradiction|]. simpl.
  rewrite (convert_ignores_render r r' g m), <- IH1.
  destruct (_convert_local_path_to_url (mkHost r' g m) hass s) as [ev u].
  destruct (convert_media (mkHost r g m) hass refs) as [evs [us|]]; simpl in *.
  - split; [reflexivity | discriminate].
  - now elim IH2.
Qed.

(** X7: an invocation whose targets, message and media references are all plain
    strings does not depend on the template engine: with any two engines it
    leaves the same trace and ends the same way, its rendering phase never
    raises, and the targets and the body reach the provider as they were
    given. *)
Theorem plain_values_bypass_templates
  (render render' : Template -> option string) (url : option string)
  (create : nat -> Client -> CreateKwargs -> CreateResult)
  (hass : HomeAssistant) (call : ServiceCall) :
  all_plain call ->
  async_send_message (mkHost render url create) hass call
  = async_send_message (mkHost render' url create) hass call
  /\ snd (render_call (mkHost render url create) hass call) <> None
  /\ option_map (map IsStr)
       (render_all (mkHost render url create) (call_target call))
     = Some (call_target call)
  /\ option_map IsStr
       (_render_template (mkHost render url create) (call_message call))
     = Some (call_message call).
Proof.
  intros [Ht [Hm Hr]].
  destruct (render_plain render render' url create _ Ht) as [Ht1 Ht2].
  assert (Hmsg : _render_template (mkHost render url create) (call_message call)
                 = _render_template (mkHost render' url create)
                     (call_message call)
                 /\ option_map IsStr
                      (_render_template (mkHost render url create)
                         (call_message call))
                    = Some (call_message call)).
  { destruct (call_message call); [contradiction | now split]. }
  destruct Hmsg as [Hm1 Hm2].
  assert (Hcall : render_call (mkHost render url create) hass call
                  = render_call (mkHost render' url create) hass call
                  /\ snd (render_call (mkHost render url create) hass call)
                     <> None).
  { unfold render_call. rewrite <- Ht1, <- Hm1.
    destruct (render_all (mkHost render url create) (call_target call));
      [|discriminate].
    destruct (_render_template (mkHost render url create) (call_message call));
      [|discriminate].
    destruct (call_media_url call) as [[|u refs]|] eqn:E;
      try (split; [reflexivity | discriminate]).
    destruct (media_plain render render' url create hass (u :: refs)
                (Hr _ eq_refl)) as [H1 H2].
    rewrite <- H1. split; [reflexivity|].
    destruct (snd (convert_media (mkHost render url create) hass (u :: refs)));
      [discriminate | now elim H2]. }
  destruct Hcall as [Hc1 Hc2].
  split; [|now repeat split].
  rewrite !async_send_message_eq. cbv zeta. rewrite <- Hc1.
  destruct (render_call (mkHost render url create) hass call) as [ev [r|]];
    [|reflexivity].
  destruct (negb _); [reflexivity|].
  destruct (find_entry_client hass (call_from_number call)); [|reflexivity].
  now rewrite (send_loop_ignores_render render render' url create).
Qed.

Lemma plain_values_bypass_templates_witness :
  let call :=
    mkServiceCall [IsStr "+15559990000"] (IsStr "{{ not a template }}")
      (Some [IsStr "/local/photo.jpg"]) "+15550001" in
  async_send_message
    (mkHost (fun _ => None) None (fun _ _ _ => Created))
    two_accounts call
  = async_send_message
      (mkHost render_source None (fun _ _ _ => Created)) two_accounts call.
Proof.
  intros call.
  refine (proj1 (plain_values_bypass_templates _ _ None _ two_accounts call _)).
  repeat split; try (repeat constructor).
  intros refs [= <-]. repeat constructor.
Defined.

(** A reference that fails to render ends the invocation where it stands:
    the warning of the reference converted before it stays in the trace, and
    neither the sender test nor any send is reached. *)
Example render_failure_keeps_earlier_warnings :
  async_send_message brittle_host two_accounts
    (mkServiceCall [IsStr "+15559990000"] (IsStr "door open")
       (Some [IsStr "http://cdn.example/a.png";
              IsTemplate (mkTemplate "{{ states.camera.door.attributes.entity_picture }}");
              IsStr "/local/photo.jpg"])
       "+15550001")
  = ([], Raised)
  /\ async_send_message brittle_host initial_hass
       (mkServiceCall [IsStr "+15559990000"] (IsStr "door open")
          (Some [IsStr "/local/photo.jpg";
                 IsTemplate (mkTemplate "{{ states.camera.door.attributes.entity_picture }}")])
          "+15550001")
     = ([Logged WARNING MSG_NO_EXTERNAL_URL [ArgStr "/local/photo.jpg"]], Raised).
Proof. split; reflexivity. Qed.
